(** * dln2-adc: the Diolan DLN-2 USB-ADC driver, embedded and verified

    The development follows [src/dln2-adc.c].  The driver talks to the
    adapter through the DLN-2 transport ([dln2_transfer]), keeps one
    [struct dln2_adc] per port, and enables the port lazily on the first
    read.  The embedding is shallow: every C function becomes a
    computation in a small state monad over the machine (the driver's
    private data, the adapter behind the transport, and the log of the
    transport calls made so far). *)

From Stdlib Require Import ZArith List Bool Lia Zbitwise.
From Stdlib Require Import Strings.Byte.
Import ListNotations.
Local Open Scope Z_scope.

(** ** Commands *)

(** The seven [DLN2_ADC_*] command identifiers, lines 24-30.  The source
    builds each with [DLN2_CMD(nr, DLN2_ADC_ID)]; [cmd_nr] keeps the first
    argument. *)
Inductive adc_cmd : Type :=
| DLN2_ADC_GET_CHANNEL_COUNT
| DLN2_ADC_ENABLE
| DLN2_ADC_DISABLE
| DLN2_ADC_CHANNEL_ENABLE
| DLN2_ADC_CHANNEL_DISABLE
| DLN2_ADC_SET_RESOLUTION
| DLN2_ADC_CHANNEL_GET_VAL.

Definition DLN2_ADC_ID : Z := 0x06.

Definition cmd_nr (c : adc_cmd) : Z :=
  match c with
  | DLN2_ADC_GET_CHANNEL_COUNT => 0x01
  | DLN2_ADC_ENABLE => 0x02
  | DLN2_ADC_DISABLE => 0x03
  | DLN2_ADC_CHANNEL_ENABLE => 0x05
  | DLN2_ADC_CHANNEL_DISABLE => 0x06
  | DLN2_ADC_SET_RESOLUTION => 0x08
  | DLN2_ADC_CHANNEL_GET_VAL => 0x0A
  end.

Definition DLN2_ADC_MAX_CHANNELS : Z := 8.
Definition DLN2_ADC_DATA_BITS : Z := 10.

(** ** Machine integers *)

(** Conversion to [u8] (initialising a [u8] field from an [int]). *)
Definition u8 (z : Z) : Z := z mod 2 ^ 8.

(** Conversion of an [int] argument to an [unsigned] parameter. *)
Definition to_unsigned (z : Z) : Z := z mod 2 ^ 32.

(** The value of a byte held in a receive buffer. *)
Definition byte_val (b : byte) : Z := Z.of_N (Byte.to_N b).

(** [le16_to_cpu] applied to a two-byte buffer: the first byte is the low
    one whatever the host's byte order. *)
Definition le16_to_cpu (buf : list byte) : Z :=
  Z.lor (byte_val (nth 0 buf x00)) (Z.shiftl (byte_val (nth 1 buf x00)) 8).

(** ** Driver data *)

(** [struct dln2_adc], lines 35-40 (the [pdev] back pointer only names the
    transport, which is the machine's [usb] component below). *)
Record dln2_adc : Type := mk_dln2_adc {
  port : Z;
  chans_enabled : Z
}.

(** [struct dln2_adc_port_chan], lines 42-45, as the bytes put on the wire. *)
Definition dln2_adc_port_chan (p c : Z) : list Z := [u8 p; u8 c].

(** The part of [struct iio_chan_spec] that [DLN2_ADC_CHAN] fills in. *)
Record iio_chan_spec : Type := mk_chan_spec {
  indexed : Z;
  channel : Z
}.

Definition DLN2_ADC_CHAN (idx : Z) : iio_chan_spec :=
  {| indexed := 1; channel := idx |}.

Definition dln2_adc_iio_channels : list iio_chan_spec :=
  [DLN2_ADC_CHAN 0; DLN2_ADC_CHAN 1; DLN2_ADC_CHAN 2; DLN2_ADC_CHAN 3;
   DLN2_ADC_CHAN 4; DLN2_ADC_CHAN 5; DLN2_ADC_CHAN 6; DLN2_ADC_CHAN 7].

(** ** Transport log *)

(** One transport call: the command, the request payload, and what the
    adapter answered (the return code and the response payload). *)
Record event : Type := mk_event {
  ev_cmd : adc_cmd;
  ev_req : list Z;
  ev_ret : Z;
  ev_rsp : list byte
}.

(** The requests of a log: command and payload. *)
Definition requests (l : list event) : list (adc_cmd * list Z) :=
  map (fun e => (ev_cmd e, ev_req e)) l.

(** The response length each command declares as its minimum: what the
    source passes as [olen] ([sizeof(count)], [sizeof(conflict)],
    [sizeof(value)]); the [dln2_transfer_tx] commands expect none. *)
Definition min_rsp_len (c : adc_cmd) : Z :=
  match c with
  | DLN2_ADC_GET_CHANNEL_COUNT => 1
  | DLN2_ADC_ENABLE | DLN2_ADC_DISABLE => 2
  | DLN2_ADC_CHANNEL_GET_VAL => 2
  | _ => 0
  end.

(** The transport reported an error for this call. *)
Definition transport_failed (e : event) : Prop := ev_ret e < 0.

(** The transport answered, but with fewer bytes than the command
    declares. *)
Definition short_response (e : event) : Prop :=
  0 <= ev_ret e /\ Z.of_nat (length (ev_rsp e)) < min_rsp_len (ev_cmd e).

Definition step_failed (e : event) : Prop :=
  transport_failed e \/ short_response e.

(** ** What lies outside the driver *)

(** The errno values and the IIO constants come from kernel headers that
    are not part of the driver.  The driver is verified for any values;
    the theorems that need an error code to be negative say so
    ([0 < EPROTO]). *)
Class kernel_consts : Type := {
  EINVAL : Z;
  EPROTO : Z;
  IIO_VAL_INT : Z;
  IIO_CHAN_INFO_RAW : Z
}.

(** The adapter behind the transport: a state and its reaction to one
    request, a return code (negative on failure) and the response
    payload. *)
Class transport : Type := {
  device : Type;
  respond : device -> adc_cmd -> list Z -> device * (Z * list byte)
}.

Section Driver.

Context {K : kernel_consts} {T : transport}.

(** ** The machine and its monad *)

Record machine : Type := mk_machine {
  adc : dln2_adc;
  usb : device;
  log : list event
}.

Definition M (A : Type) : Type := machine -> A * machine.

Definition ret {A} (a : A) : M A := fun m => (a, m).

Definition bind {A B} (c : M A) (k : A -> M B) : M B :=
  fun m => let (a, m') := c m in k a m'.

Notation "x <- c ;; k" := (bind c (fun x => k))
  (at level 61, c at next level, right associativity).
Notation "' pat <- c ;; k" := (bind c (fun x => let pat := x in k))
  (at level 61, pat pattern, c at next level, right associativity).

Definition get_dln2 : M dln2_adc := fun m => (adc m, m).

Definition set_chans_enabled (v : Z) : M unit := fun m =>
  (tt, {| adc := {| port := port (adc m); chans_enabled := v |};
          usb := usb m; log := log m |}).

(** Modelled from the spec: the transport client,
    [send(commandId, requestBytes) -> responseBytes | error], which the
    source reaches as [dln2_transfer] of [<linux/mfd/dln2.h>].  [obuf_len]
    is the capacity the caller passes in [*obuf_len]; the call hands back
    the return code, the bytes copied into [obuf] and the updated
    [*obuf_len], never more than the capacity.  Every call is logged. *)
Definition dln2_transfer (cmd : adc_cmd) (ibuf : list Z) (obuf_len : nat)
  : M (Z * list byte * Z) := fun m =>
  let '(d, (r, rsp)) := respond (usb m) cmd ibuf in
  let obuf := firstn obuf_len rsp in
  ((r, obuf, Z.of_nat (length obuf)),
   {| adc := adc m; usb := d;
      log := log m ++ [mk_event cmd ibuf r rsp] |}).

(** Modelled from the spec: [dln2_transfer_tx], the transport call of the
    commands with no significant response; only the return code comes
    back. *)
Definition dln2_transfer_tx (cmd : adc_cmd) (ibuf : list Z) : M Z :=
  '(r, _, _) <- dln2_transfer cmd ibuf 0 ;;
  ret r.

(** ** The driver, function by function *)

(** Lines 47-63. *)
Definition dln2_adc_get_chan_count : M Z :=
  dln2 <- get_dln2 ;;
  let port := u8 (port dln2) in
  '(r, count, olen) <- dln2_transfer DLN2_ADC_GET_CHANNEL_COUNT [port] 1 ;;
  if r <? 0 then ret r
  else if olen <? 1 then ret (- EPROTO)
  else ret (byte_val (nth 0 count x00)).

(** Lines 65-79. *)
Definition dln2_adc_set_port_resolution : M Z :=
  dln2 <- get_dln2 ;;
  let port_chan := dln2_adc_port_chan (port dln2) DLN2_ADC_DATA_BITS in
  r <- dln2_transfer_tx DLN2_ADC_SET_RESOLUTION port_chan ;;
  if r <? 0 then ret r else ret 0.

(** Lines 81-98. *)
Definition dln2_adc_set_chan_enabled (channel : Z) (enable : bool) : M Z :=
  dln2 <- get_dln2 ;;
  let port_chan := dln2_adc_port_chan (port dln2) channel in
  r <- dln2_transfer_tx
         (if enable then DLN2_ADC_CHANNEL_ENABLE
          else DLN2_ADC_CHANNEL_DISABLE) port_chan ;;
  if r <? 0 then ret r else ret 0.

(** The loop of lines 113-117, [for (i = 0; i < chan_count; ++i)], with
    [todo] the number of iterations left ([chan_count - i]).  [Some r] is
    the early [return r] out of the enclosing function; [None] is the loop
    running to its end. *)
Fixpoint enable_channels (todo : nat) (i : Z) : M (option Z) :=
  match todo with
  | O => ret None
  | S todo' =>
      r <- dln2_adc_set_chan_enabled i true ;;
      if r <? 0 then ret (Some r)
      else enable_channels todo' (i + 1)
  end.

(** Lines 100-132. *)
Definition dln2_adc_set_port_enabled (enable : bool) : M Z :=
  r <- dln2_adc_get_chan_count ;;
  if r <? 0 then ret r else
  let chan_count := r in
  r <- dln2_adc_set_port_resolution ;;
  if r <? 0 then ret r else
  early <- enable_channels (Z.to_nat chan_count) 0 ;;
  match early with
  | Some r => ret r
  | None =>
      dln2 <- get_dln2 ;;
      let port := u8 (port dln2) in
      '(r, conflict, olen) <-
         dln2_transfer (if enable then DLN2_ADC_ENABLE else DLN2_ADC_DISABLE)
                       [port] 2 ;;
      if r <? 0 then ret r
      else if olen <? 2 then ret (- EPROTO)
      else ret 0
  end.

(** Lines 134-161. *)
Definition dln2_adc_read (channel : Z) : M Z :=
  dln2 <- get_dln2 ;;
  r <- (if chans_enabled dln2 =? 0 then
          r <- dln2_adc_set_port_enabled true ;;
          if r <? 0 then ret (Some r)
          else _ <- set_chans_enabled 1 ;; ret None
        else ret None) ;;
  match r with
  | Some r => ret r
  | None =>
      dln2 <- get_dln2 ;;
      let port_chan := dln2_adc_port_chan (port dln2) channel in
      '(r, value, olen) <-
         dln2_transfer DLN2_ADC_CHANNEL_GET_VAL port_chan 2 ;;
      if r <? 0 then ret r
      else if olen <? 2 then ret (- EPROTO)
      else ret (le16_to_cpu value)
  end.

(** Lines 163-185.  [val] and [val2] are the contents of [*val] and
    [*val2] on entry; the result carries their contents on exit.  The
    [mlock] mutex brackets the call to [dln2_adc_read]; one thread is
    modelled, so taking and releasing it is not visible. *)
Definition dln2_adc_read_raw (chan : iio_chan_spec) (val val2 : Z) (mask : Z)
  : M (Z * Z * Z) :=
  if mask =? IIO_CHAN_INFO_RAW then
    r <- dln2_adc_read (to_unsigned (channel chan)) ;;
    if r <? 0 then ret (- EINVAL, val, val2)
    else ret (IIO_VAL_INT, r, val2)
  else ret (- EINVAL, val, val2).

(** Lines 246-252: [iio_device_unregister] and nothing else; no transport
    call, no write to the driver data. *)
Definition dln2_adc_remove : M Z := ret 0.

(** The driver data as [dln2_adc_probe] leaves it (lines 218-226): zeroed
    by the allocation, then [port] set from the platform data.  The rest
    of probe (a failed allocation, the registration with the IIO core) is
    between the host and the kernel and touches neither the driver data
    nor the transport. *)
Definition dln2_adc_probe (pdata_port : Z) : dln2_adc :=
  {| port := pdata_port; chans_enabled := 0 |}.

(** ** Runs of the driver *)

(** The host calling [dln2_adc_read] for one channel after the other. *)
Fixpoint read_each (channels : list Z) : M (list Z) :=
  match channels with
  | [] => ret []
  | c :: cs =>
      r <- dln2_adc_read c ;;
      rs <- read_each cs ;;
      ret (r :: rs)
  end.

(** The two entry points the platform driver and the IIO core can call
    once the device is probed. *)
Inductive driver_call : Type :=
| Call_read_raw (chan : iio_chan_spec) (val val2 mask : Z)
| Call_remove.

Definition run_call (c : driver_call) : M Z :=
  match c with
  | Call_read_raw chan val val2 mask =>
      '(r, _, _) <- dln2_adc_read_raw chan val val2 mask ;; ret r
  | Call_remove => dln2_adc_remove
  end.

Fixpoint run_calls (cs : list driver_call) : M (list Z) :=
  match cs with
  | [] => ret []
  | c :: cs' =>
      r <- run_call c ;;
      rs <- run_calls cs' ;;
      ret (r :: rs)
  end.

(** ** Reading the log *)

(** One transport call seen from outside: the adapter's answer, the event
    logged and the adapter's next state. *)
Definition issue (m : machine) (cmd : adc_cmd) (req : list Z)
  : event * machine :=
  let '(d, (r, rsp)) := respond (usb m) cmd req in
  let e := mk_event cmd req r rsp in
  (e, {| adc := adc m; usb := d; log := log m ++ [e] |}).

(** The error a failed step hands to its caller: the transport's own code,
    or [-EPROTO] for a short response. *)
Definition err_of (e : event) : Z :=
  if ev_ret e <? 0 then ev_ret e else - EPROTO.

(** What a receiving step returns for a logged call: the transport's
    error, [-EPROTO] for a short response, else the decoded payload. *)
Definition rx_result (decode : list byte -> Z) (e : event) : Z :=
  if ev_ret e <? 0 then ev_ret e
  else if Z.of_nat (length (ev_rsp e)) <? min_rsp_len (ev_cmd e)
       then - EPROTO
       else decode (ev_rsp e).

(** What a send-only step returns for a logged call. *)
Definition tx_result (e : event) : Z :=
  if ev_ret e <? 0 then ev_ret e else 0.

Definition count_of (rsp : list byte) : Z := byte_val (nth 0 rsp x00).

(** The driver data with the enabled flag set. *)
Definition enabled_adc (a : dln2_adc) : dln2_adc :=
  {| port := port a; chans_enabled := 1 |}.

Definition mark_enabled (m : machine) : machine :=
  {| adc := enabled_adc (adc m); usb := usb m; log := log m |}.

End Driver.

(** The step went through: no transport error and a response of at least
    the declared length. *)
Definition step_ok (e : event) : Prop :=
  0 <= ev_ret e /\ min_rsp_len (ev_cmd e) <= Z.of_nat (length (ev_rsp e)).

(** [n] consecutive channel numbers from [i] on. *)
Fixpoint zrange (i : Z) (n : nat) : list Z :=
  match n with
  | O => []
  | S n' => i :: zrange (i + 1) n'
  end.

Definition chan_enable_req (p c : Z) : adc_cmd * list Z :=
  (DLN2_ADC_CHANNEL_ENABLE, dln2_adc_port_chan p c).

(** The enable sequence for port [p] with [n] channels, as requests on
    the wire; [port_cmd] is the last command, [DLN2_ADC_ENABLE] when the
    port is being enabled. *)
Definition enable_script (p : Z) (n : nat) (port_cmd : adc_cmd)
  : list (adc_cmd * list Z) :=
  (DLN2_ADC_GET_CHANNEL_COUNT, [u8 p])
  :: (DLN2_ADC_SET_RESOLUTION, dln2_adc_port_chan p DLN2_ADC_DATA_BITS)
  :: map (chan_enable_req p) (zrange 0 n)
  ++ [(port_cmd, [u8 p])].

(** The command that closes the sequence. *)
Definition port_cmd (enable : bool) : adc_cmd :=
  if enable then DLN2_ADC_ENABLE else DLN2_ADC_DISABLE.

(** The channel count a GetChannelCount response carries. *)
Definition reported_count (l : list event) : nat :=
  match l with
  | e :: _ => Z.to_nat (byte_val (nth 0 (ev_rsp e) x00))
  | [] => O
  end.

(** ** A concrete kernel and a concrete adapter *)

(** The values of [<uapi/asm-generic/errno-base.h>], [<uapi/asm-generic/errno.h>]
    and [<linux/iio/types.h>]. *)
Definition linux : kernel_consts :=
  {| EINVAL := 22; EPROTO := 71; IIO_VAL_INT := 1; IIO_CHAN_INFO_RAW := 0 |}.

(** An adapter that plays back a fixed list of answers, one per request,
    and reports an I/O error ([-EIO]) once the list is used up. *)
Definition script : Type := list (Z * list byte).

Definition play (s : script) (_ : adc_cmd) (_ : list Z)
  : script * (Z * list byte) :=
  match s with
  | [] => ([], (-5, []))
  | a :: s' => (s', a)
  end.

Definition scripted : transport := {| device := script; respond := play |}.

(** A machine on the scripted adapter with an empty log. *)
Definition boot (ctx : dln2_adc) (s : script) : @machine scripted :=
  {| adc := ctx; usb := (s : @device scripted); log := [] |}.

(** An adapter with two channels that answers every step of the enable
    sequence and then one ChannelGetValue with the bytes [b0], [b1]. *)
Definition two_channel_adapter (b0 b1 : byte) : script :=
  [(0, [x02]); (0, []); (0, []); (0, []); (0, [x00; x00]); (0, [b0; b1])].

(** Sample machines: port 2 right after probe, in front of the
    two-channel adapter about to deliver [0xFF 0x03]; port 2 with the
    flag already set; port 2 in front of an adapter with six channels
    whose fifth ChannelEnable times out ([-ETIMEDOUT]). *)
Definition fresh_port : @machine scripted :=
  boot (dln2_adc_probe 2) (two_channel_adapter xff x03).

Definition enabled_port (s : script) : @machine scripted :=
  boot {| port := 2; chans_enabled := 1 |} s.

Definition fifth_channel_fails : @machine scripted :=
  boot (dln2_adc_probe 2)
       [(0, [x06]); (0, []); (0, []); (0, []); (0, []); (0, []); (-110, [])].

(** Port 2 right after probe, in front of an adapter that is gone: the
    first request fails with [-ENODEV]. *)
Definition unplugged_port : @machine scripted :=
  boot (dln2_adc_probe 2) [(-19, [])].

(** Port 2 right after probe, in front of the two-channel adapter that
    answers the whole enable sequence and then lets ChannelGetValue time
    out. *)
Definition get_value_times_out : @machine scripted :=
  boot (dln2_adc_probe 2)
       [(0, [x02]); (0, []); (0, []); (0, []); (0, [x00; x00]); (-110, [])].

(** ** Counting and checking logged calls *)

(** [step_ok] as a test. *)
Definition step_okb (e : event) : bool :=
  (0 <=? ev_ret e) && (min_rsp_len (ev_cmd e) <=? Z.of_nat (length (ev_rsp e))).

(** The call is a PortEnable that went through. *)
Definition port_enabledb (e : event) : bool :=
  match ev_cmd e with
  | DLN2_ADC_ENABLE => step_okb e
  | _ => false
  end.

(** How often the adapter acknowledged a PortEnable in a log. *)
Definition port_enable_count (l : list event) : nat :=
  length (filter port_enabledb l).

(** The layout of a request on the wire for port [p]: the port byte alone
    for the commands that take a [u8 port], the port byte and one more
    byte for those that take a [struct dln2_adc_port_chan]. *)
Definition wire_ok (p : Z) (rq : adc_cmd * list Z) : Prop :=
  match fst rq with
  | DLN2_ADC_GET_CHANNEL_COUNT | DLN2_ADC_ENABLE | DLN2_ADC_DISABLE =>
      snd rq = [u8 p]
  | _ => exists c, 0 <= c < 256 /\ snd rq = [u8 p; c]
  end.

(** * Properties *)

Section Properties.

Context {K : kernel_consts} {T : transport}.

(** ** Lists, ranges and bytes *)

(** The seven commands have seven different numbers. *)
Lemma cmd_nr_inj a b : cmd_nr a = cmd_nr b -> a = b.
Proof. destruct a, b; simpl; intros H; try reflexivity; discriminate. Qed.

Lemma zrange_length i n : length (zrange i n) = n.
Proof. revert i; induction n; intros; simpl; auto. Qed.

Lemma zrange_app i a b :
  zrange i (a + b) = zrange i a ++ zrange (i + Z.of_nat a) b.
Proof.
  revert i; induction a as [|a IH]; intros i.
  - simpl. f_equal. lia.
  - cbn [Nat.add zrange app]. rewrite IH. do 3 f_equal. lia.
Qed.

Lemma zrange_bounds i n x : In x (zrange i n) -> i <= x < i + Z.of_nat n.
Proof.
  revert i; induction n as [|n IH]; intros i H; simpl in H.
  - contradiction.
  - destruct H as [<- | H]; [lia|]. apply IH in H. lia.
Qed.

Lemma byte_val_range b : 0 <= byte_val b <= 255.
Proof.
  unfold byte_val. pose proof (Byte.to_N_bounded b). lia.
Qed.

Lemma lor_shiftl_8 a b :
  0 <= a < 256 -> Z.lor a (Z.shiftl b 8) = a + 256 * b.
Proof.
  intros Ha. rewrite Z.shiftl_mul_pow2 by lia.
  assert (Hland : Z.land a (b * 2 ^ 8) = 0).
  { apply Z.bits_inj'. intros n Hn.
    rewrite Z.land_spec, Z.bits_0.
    destruct (Z.lt_ge_cases n 8) as [Hlt | Hge].
    - rewrite Z.mul_pow2_bits_low by lia. apply andb_false_r.
    - assert (Hbit : Z.testbit a n = false).
      { destruct (Z.eq_dec a 0) as [-> | Hnz]; [apply Z.bits_0|].
        apply Z.bits_above_log2; [lia|].
        apply Z.lt_le_trans with 8; [|assumption].
        apply Z.log2_lt_pow2; [lia|]. change (2 ^ 8) with 256. lia. }
      rewrite Hbit. reflexivity. }
  pose proof (Z.add_lor_land a (b * 2 ^ 8)) as Hadd.
  rewrite Hland in Hadd. change (2 ^ 8) with 256 in *. lia.
Qed.

Lemma le16_to_cpu_value b0 b1 rest :
  le16_to_cpu (b0 :: b1 :: rest) = byte_val b0 + 256 * byte_val b1.
Proof.
  unfold le16_to_cpu. cbn [nth].
  apply lor_shiftl_8. pose proof (byte_val_range b0). lia.
Qed.

Lemma le16_to_cpu_firstn l :
  (2 <= length l)%nat -> le16_to_cpu (firstn 2 l) = le16_to_cpu l.
Proof.
  destruct l as [|a [|b l]]; simpl; try lia. reflexivity.
Qed.

Lemma short_firstn (n : nat) (l : list byte) :
  (Z.of_nat (length (firstn n l)) <? Z.of_nat n)
  = (Z.of_nat (length l) <? Z.of_nat n).
Proof.
  rewrite length_firstn.
  destruct (Z.ltb_spec (Z.of_nat (length l)) (Z.of_nat n));
    destruct (Z.ltb_spec (Z.of_nat (Nat.min n (length l))) (Z.of_nat n));
    try reflexivity; lia.
Qed.

Lemma u8_to_unsigned z : u8 (to_unsigned z) = u8 z.
Proof.
  unfold u8, to_unsigned.
  apply Z.mod_mod_divide. exists (2 ^ 24). reflexivity.
Qed.

Lemma step_ok_not_failed e : step_ok e -> step_failed e -> False.
Proof. unfold step_ok, step_failed, transport_failed, short_response. lia. Qed.

Lemma step_ok_or_failed e : step_ok e \/ step_failed e.
Proof. unfold step_ok, step_failed, transport_failed, short_response. lia. Qed.

Lemma last_split (A : Type) (pre post l : list A) (e x : A) :
  pre ++ e :: post = l ++ [x] ->
  (post = [] /\ pre = l /\ e = x) \/ In e l.
Proof.
  intros H. destruct post as [|y post'].
  - left. apply app_inj_tail in H. tauto.
  - right.
    destruct (@exists_last _ (y :: post')) as (q & z & Hq); [discriminate|].
    rewrite Hq in H.
    change (pre ++ e :: q ++ [z]) with (pre ++ (e :: q) ++ [z]) in H.
    rewrite app_assoc in H. apply app_inj_tail in H. destruct H as [<- _].
    apply in_or_app. right. left. reflexivity.
Qed.

(** ** One transport call *)

Lemma issue_facts m cmd req e m1 :
  issue m cmd req = (e, m1) ->
  ev_cmd e = cmd /\ ev_req e = req /\ adc m1 = adc m /\
  log m1 = log m ++ [e].
Proof.
  unfold issue. destruct (respond (usb m) cmd req) as [d [r rsp]].
  intros H; inversion H; subst; simpl. auto.
Qed.

Lemma dln2_transfer_run m cmd ibuf n e m1 :
  issue m cmd ibuf = (e, m1) ->
  dln2_transfer cmd ibuf n m =
  ((ev_ret e, firstn n (ev_rsp e),
    Z.of_nat (length (firstn n (ev_rsp e)))), m1).
Proof.
  unfold issue, dln2_transfer.
  destruct (respond (usb m) cmd ibuf) as [d [r rsp]].
  intros H; inversion H; subst; reflexivity.
Qed.

Lemma dln2_transfer_tx_run m cmd ibuf e m1 :
  issue m cmd ibuf = (e, m1) ->
  dln2_transfer_tx cmd ibuf m = (ev_ret e, m1).
Proof.
  intros H. unfold dln2_transfer_tx, bind.
  rewrite (dln2_transfer_run _ _ _ 0 _ _ H). reflexivity.
Qed.

(** ** The steps of the enable sequence *)

Lemma dln2_adc_get_chan_count_run m e m1 :
  issue m DLN2_ADC_GET_CHANNEL_COUNT [u8 (port (adc m))] = (e, m1) ->
  dln2_adc_get_chan_count m = (rx_result count_of e, m1).
Proof.
  intros H. unfold dln2_adc_get_chan_count, bind, get_dln2.
  rewrite (dln2_transfer_run _ _ _ 1 _ _ H).
  destruct (issue_facts _ _ _ _ _ H) as (Hc & _).
  unfold rx_result, ret. rewrite Hc. cbn [min_rsp_len].
  change 1 with (Z.of_nat 1). rewrite short_firstn.
  destruct (ev_ret e <? 0); [reflexivity|].
  destruct (Z.ltb_spec (Z.of_nat (length (ev_rsp e))) (Z.of_nat 1));
    [reflexivity|].
  unfold count_of. destruct (ev_rsp e); simpl in *; [lia | reflexivity].
Qed.

Lemma dln2_adc_set_port_resolution_run m e m1 :
  issue m DLN2_ADC_SET_RESOLUTION
        (dln2_adc_port_chan (port (adc m)) DLN2_ADC_DATA_BITS) = (e, m1) ->
  dln2_adc_set_port_resolution m = (tx_result e, m1).
Proof.
  intros H. unfold dln2_adc_set_port_resolution, bind, get_dln2.
  rewrite (dln2_transfer_tx_run _ _ _ _ _ H).
  unfold tx_result, ret. destruct (ev_ret e <? 0); reflexivity.
Qed.

Lemma dln2_adc_set_chan_enabled_run m channel (enable : bool) e m1 :
  issue m (if enable then DLN2_ADC_CHANNEL_ENABLE
           else DLN2_ADC_CHANNEL_DISABLE)
        (dln2_adc_port_chan (port (adc m)) channel) = (e, m1) ->
  dln2_adc_set_chan_enabled channel enable m = (tx_result e, m1).
Proof.
  intros H. unfold dln2_adc_set_chan_enabled, bind, get_dln2.
  rewrite (dln2_transfer_tx_run _ _ _ _ _ H).
  unfold tx_result; unfold ret. destruct (ev_ret e <? 0); reflexivity.
Qed.

Lemma tx_step_ok e :
  min_rsp_len (ev_cmd e) = 0 -> 0 <= ev_ret e -> step_ok e.
Proof. unfold step_ok. intros -> ?. lia. Qed.

Lemma enable_channels_run todo : forall i m res m',
  enable_channels todo i m = (res, m') ->
  adc m' = adc m /\
  exists evs,
    log m' = log m ++ evs /\
    requests evs
    = map (chan_enable_req (port (adc m))) (zrange i (length evs)) /\
    (length evs <= todo)%nat /\
    match res with
    | None => length evs = todo /\ Forall step_ok evs
    | Some r =>
        exists pre e, evs = pre ++ [e] /\ Forall step_ok pre /\
                      transport_failed e /\ r = ev_ret e
    end.
Proof.
  induction todo as [|todo IH]; intros i m res m' H.
  - inversion H; subst. split; [reflexivity|].
    exists []. rewrite app_nil_r. simpl. auto.
  - cbn [enable_channels] in H. unfold bind in H.
    destruct (issue m DLN2_ADC_CHANNEL_ENABLE
                (dln2_adc_port_chan (port (adc m)) i)) as [e m1] eqn:E.
    rewrite (dln2_adc_set_chan_enabled_run m i true e m1 E) in H.
    destruct (issue_facts _ _ _ _ _ E) as (Hc & Hq & Ha & Hl).
    unfold tx_result in H.
    destruct (Z.ltb_spec (ev_ret e) 0) as [Hneg | Hpos].
    + destruct (Z.ltb_spec (ev_ret e) 0); [|lia].
      inversion H; subst res m'. split; [assumption|].
      exists [e]. repeat split; simpl; try lia; auto.
      * unfold chan_enable_req. rewrite Hc, Hq. reflexivity.
      * exists [], e. repeat split; auto.
    + change (0 <? 0) with false in H.
      apply IH in H. destruct H as (Ha' & evs & Hl' & Hr & Hn & Hres).
      split; [congruence|].
      exists (e :: evs). rewrite Hl', Hl, <- app_assoc. simpl.
      split; [reflexivity|]. split.
      { rewrite Hr, Ha. unfold chan_enable_req at 1.
        rewrite Hc, Hq. reflexivity. }
      split; [lia|].
      assert (Hok : step_ok e) by (apply tx_step_ok; [rewrite Hc; reflexivity | lia]).
      destruct res as [r|].
      * destruct Hres as (pre & x & -> & Hpre & Hx & ->).
        exists (e :: pre), x. repeat split; auto.
      * destruct Hres as [<- Hall]. split; [reflexivity|]. constructor; auto.
Qed.

(** ** The enable sequence as a whole *)

Lemma dln2_adc_set_port_enabled_run enable m r m' :
  0 < EPROTO ->
  dln2_adc_set_port_enabled enable m = (r, m') ->
  adc m' = adc m /\
  exists pre e,
    log m' = log m ++ pre ++ [e] /\
    Forall step_ok pre /\
    (exists rest,
        requests (pre ++ [e]) ++ rest
        = enable_script (port (adc m)) (reported_count (pre ++ [e]))
                        (port_cmd enable)) /\
    ((step_failed e /\ r = err_of e /\ r < 0) \/
     (step_ok e /\ r = 0 /\
      requests (pre ++ [e])
      = enable_script (port (adc m)) (reported_count (pre ++ [e]))
                      (port_cmd enable))).
Proof.
  intros HE H. unfold dln2_adc_set_port_enabled, bind in H.
  (* GetChannelCount *)
  destruct (issue m DLN2_ADC_GET_CHANNEL_COUNT [u8 (port (adc m))])
    as [g m1] eqn:Eg.
  rewrite (dln2_adc_get_chan_count_run _ _ _ Eg) in H.
  destruct (issue_facts _ _ _ _ _ Eg) as (Hgc & Hgq & Hga & Hgl).
  unfold rx_result in H. rewrite Hgc in H. cbn [min_rsp_len] in H.
  destruct (Z.ltb_spec (ev_ret g) 0) as [Hg1 | Hg1].
  { destruct (Z.ltb_spec (ev_ret g) 0); [|lia].
    inversion H; subst r m'. split; [assumption|].
    exists [], g. simpl. repeat split; auto.
    - eexists. unfold enable_script. rewrite Hgc, Hgq. reflexivity.
    - left. unfold step_failed, transport_failed, err_of.
      destruct (Z.ltb_spec (ev_ret g) 0); [auto | lia]. }
  destruct (Z.ltb_spec (Z.of_nat (length (ev_rsp g))) 1) as [Hg2 | Hg2].
  { destruct (Z.ltb_spec (- EPROTO) 0); [|lia].
    inversion H; subst r m'. split; [assumption|].
    exists [], g. simpl. repeat split; auto.
    - eexists. unfold enable_script. rewrite Hgc, Hgq. reflexivity.
    - left. unfold step_failed, short_response, err_of. rewrite Hgc.
      cbn [min_rsp_len].
      destruct (Z.ltb_spec (ev_ret g) 0); [lia|]. repeat split; auto; lia. }
  assert (Hgok : step_ok g) by (unfold step_ok; rewrite Hgc; simpl; lia).
  pose proof (byte_val_range (nth 0 (ev_rsp g) x00)) as Hcnt.
  fold (count_of (ev_rsp g)) in Hcnt.
  destruct (Z.ltb_spec (count_of (ev_rsp g)) 0); [lia|].
  (* SetResolution *)
  destruct (issue m1 DLN2_ADC_SET_RESOLUTION
              (dln2_adc_port_chan (port (adc m1)) DLN2_ADC_DATA_BITS))
    as [s m2] eqn:Es.
  rewrite (dln2_adc_set_port_resolution_run _ _ _ Es) in H.
  destruct (issue_facts _ _ _ _ _ Es) as (Hsc & Hsq & Hsa & Hsl).
  rewrite Hga in Hsq.
  unfold tx_result in H.
  destruct (Z.ltb_spec (ev_ret s) 0) as [Hs1 | Hs1].
  { destruct (Z.ltb_spec (ev_ret s) 0); [|lia].
    inversion H; subst r m'. split; [congruence|].
    exists [g], s. rewrite Hsl, Hgl, <- app_assoc. simpl.
    repeat split; auto.
    - eexists. unfold enable_script. rewrite Hgc, Hgq, Hsc, Hsq. reflexivity.
    - left. unfold step_failed, transport_failed, err_of.
      destruct (Z.ltb_spec (ev_ret s) 0); [auto | lia]. }
  change (0 <? 0) with false in H. cbv beta iota in H.
  assert (Hsok : step_ok s)
    by (apply tx_step_ok; [rewrite Hsc; reflexivity | lia]).
  (* ChannelEnable, one channel after the other *)
  destruct (enable_channels (Z.to_nat (count_of (ev_rsp g))) 0 m2)
    as [early m3] eqn:El.
  try rewrite El in H.
  apply enable_channels_run in El.
  destruct El as (Hla & cs & Hll & Hlr & Hln & Hres).
  assert (Hp3 : port (adc m3) = port (adc m)) by congruence.
  assert (Hp2 : port (adc m2) = port (adc m)) by congruence.
  rewrite Hp2 in Hlr.
  assert (Hrc : forall l, reported_count (g :: l)
                          = Z.to_nat (count_of (ev_rsp g))) by reflexivity.
  destruct early as [r1|].
  { inversion H; subst r m'. split; [congruence|].
    destruct Hres as (pre & c & -> & Hpre & Hc & ->).
    exists (g :: s :: pre), c.
    rewrite Hll, Hsl, Hgl, <- !app_assoc. simpl.
    repeat split; auto.
    - exists (map (chan_enable_req (port (adc m)))
                  (zrange (0 + Z.of_nat (length (pre ++ [c])))
                     (Z.to_nat (count_of (ev_rsp g)) - length (pre ++ [c])))
              ++ [(port_cmd enable, [u8 (port (adc m))])]).
      unfold enable_script, requests in *.
      cbn [map app]. rewrite Hgc, Hgq, Hsc, Hsq. do 2 f_equal.
      rewrite app_assoc. f_equal.
      rewrite Hlr, <- map_app, <- zrange_app. do 2 f_equal.
      unfold count_of in *. lia.
    - left. unfold step_failed, err_of. unfold transport_failed in *.
      destruct (Z.ltb_spec (ev_ret c) 0); [auto | lia]. }
  destruct Hres as [Hlen Hcs].
  (* PortEnable *)
  unfold get_dln2 in H.
  destruct (issue m3 (if enable then DLN2_ADC_ENABLE else DLN2_ADC_DISABLE)
              [u8 (port (adc m3))]) as [pe m4] eqn:Ep.
  rewrite (dln2_transfer_run _ _ _ 2 _ _ Ep) in H.
  destruct (issue_facts _ _ _ _ _ Ep) as (Hpc & Hpq & Hpa & Hpl).
  rewrite Hp3 in Hpq. fold (port_cmd enable) in Hpc.
  change 2 with (Z.of_nat 2) in H. rewrite short_firstn in H.
  assert (Hmin : min_rsp_len (ev_cmd pe) = 2)
    by (rewrite Hpc; destruct enable; reflexivity).
  assert (Hreq : requests ((g :: s :: cs) ++ [pe])
                 = enable_script (port (adc m))
                     (Z.to_nat (count_of (ev_rsp g))) (port_cmd enable)).
  { unfold enable_script, requests in *. cbn [map app].
    rewrite Hgc, Hgq, Hsc, Hsq. do 2 f_equal.
    rewrite map_app, Hlr, Hlen. cbn [map]. rewrite Hpc, Hpq. reflexivity. }
  assert (Hlog : log m4 = log m ++ (g :: s :: cs) ++ [pe]).
  { rewrite Hpl, Hll, Hsl, Hgl, <- !app_assoc. reflexivity. }
  assert (Hadc : adc m4 = adc m) by congruence.
  assert (Hpre : Forall step_ok (g :: s :: cs))
    by (constructor; [exact Hgok | constructor; [exact Hsok | exact Hcs]]).
  destruct (Z.ltb_spec (ev_ret pe) 0) as [Hp1 | Hp1].
  { inversion H; subst r m'. split; [assumption|].
    exists (g :: s :: cs), pe. repeat split; auto.
    - exists []. rewrite app_nil_r. exact Hreq.
    - left. unfold step_failed, transport_failed, err_of.
      destruct (Z.ltb_spec (ev_ret pe) 0); [auto | lia]. }
  destruct (Z.ltb_spec (Z.of_nat (length (ev_rsp pe))) (Z.of_nat 2))
    as [Hp2' | Hp2'].
  { inversion H; subst r m'. split; [assumption|].
    exists (g :: s :: cs), pe. repeat split; auto.
    - exists []. rewrite app_nil_r. exact Hreq.
    - left. unfold step_failed, short_response, err_of. rewrite Hmin.
      destruct (Z.ltb_spec (ev_ret pe) 0); [lia|].
      repeat split; auto; lia. }
  inversion H; subst r m'. split; [assumption|].
  exists (g :: s :: cs), pe. repeat split; auto.
  - exists []. rewrite app_nil_r. exact Hreq.
  - right. unfold step_ok. rewrite Hmin. repeat split; auto; lia.
Qed.

(** ** The shape of the enable script *)

Lemma In_requests evs x :
  In x evs -> In (ev_cmd x, ev_req x) (requests evs).
Proof.
  intros H. unfold requests.
  exact (in_map (fun e => (ev_cmd e, ev_req e)) evs x H).
Qed.

Lemma requests_app l1 l2 : requests (l1 ++ l2) = requests l1 ++ requests l2.
Proof. unfold requests. apply map_app. Qed.

Lemma enable_script_body_cmds p n c q :
  In (c, q)
     ((DLN2_ADC_GET_CHANNEL_COUNT, [u8 p])
      :: (DLN2_ADC_SET_RESOLUTION, dln2_adc_port_chan p DLN2_ADC_DATA_BITS)
      :: map (chan_enable_req p) (zrange 0 n)) ->
  c = DLN2_ADC_GET_CHANNEL_COUNT \/ c = DLN2_ADC_SET_RESOLUTION \/
  c = DLN2_ADC_CHANNEL_ENABLE.
Proof.
  intros [H | [H | H]]; try (inversion H; auto).
  apply in_map_iff in H. destruct H as (k & H & _).
  unfold chan_enable_req in H. inversion H; auto.
Qed.

Lemma enable_script_cmds p n pc c q :
  In (c, q) (enable_script p n pc) ->
  c = DLN2_ADC_GET_CHANNEL_COUNT \/ c = DLN2_ADC_SET_RESOLUTION \/
  c = DLN2_ADC_CHANNEL_ENABLE \/ c = pc.
Proof.
  unfold enable_script. intros H.
  change (In (c, q)
            (((DLN2_ADC_GET_CHANNEL_COUNT, [u8 p])
              :: (DLN2_ADC_SET_RESOLUTION,
                  dln2_adc_port_chan p DLN2_ADC_DATA_BITS)
              :: map (chan_enable_req p) (zrange 0 n))
             ++ [(pc, [u8 p])])) in H.
  apply in_app_or in H. destruct H as [H | [H | []]].
  - apply enable_script_body_cmds in H. tauto.
  - inversion H. auto.
Qed.

(** GetChannelCount is the first request of the script and occurs nowhere
    else. *)
Lemma script_count_first p n enable pre e rest :
  requests (pre ++ [e]) ++ rest = enable_script p n (port_cmd enable) ->
  ev_cmd e = DLN2_ADC_GET_CHANNEL_COUNT ->
  pre = [].
Proof.
  intros H Hc. destruct pre as [|x pre]; [reflexivity|exfalso].
  unfold enable_script in H. simpl in H. inversion H as [[Hx Hy Ht]].
  assert (Hin : In (ev_cmd e, ev_req e) (requests (pre ++ [e]) ++ rest)).
  { apply in_or_app. left. apply In_requests.
    apply in_or_app. right. left. reflexivity. }
  rewrite Ht in Hin. destruct Hin as [Hin | Hin].
  - inversion Hin. congruence.
  - apply in_app_or in Hin. destruct Hin as [Hin | [Hin | []]].
    + apply in_map_iff in Hin. destruct Hin as (k & Hin & _).
      unfold chan_enable_req in Hin. inversion Hin. congruence.
    + inversion Hin. destruct enable; simpl in *; congruence.
Qed.

(** The port command is the last request of the script and occurs nowhere
    else. *)
Lemma script_port_last p n enable pre e rest :
  requests (pre ++ [e]) ++ rest = enable_script p n (port_cmd enable) ->
  ev_cmd e <> port_cmd enable ->
  Forall (fun x => ev_cmd x <> port_cmd enable) (pre ++ [e]).
Proof.
  intros H Hc. unfold enable_script in H.
  rewrite 2 app_comm_cons in H.
  destruct rest as [|y rest'].
  - rewrite app_nil_r, requests_app in H. apply app_inj_tail in H.
    destruct H as [_ H]. inversion H. congruence.
  - destruct (@exists_last _ (y :: rest')) as (q & z & Hq); [discriminate|].
    rewrite Hq, app_assoc in H. apply app_inj_tail in H.
    destruct H as [H _].
    apply Forall_forall. intros x Hx Hcx.
    assert (Hin : In (ev_cmd x, ev_req x) (requests (pre ++ [e]) ++ q))
      by (apply in_or_app; left; apply In_requests; exact Hx).
    rewrite H in Hin. apply enable_script_body_cmds in Hin.
    destruct enable; simpl in Hcx; intuition congruence.
Qed.

(** ** Reading a channel *)

Lemma dln2_adc_read_enabled_run m ch e m1 :
  chans_enabled (adc m) <> 0 ->
  issue m DLN2_ADC_CHANNEL_GET_VAL
        (dln2_adc_port_chan (port (adc m)) ch) = (e, m1) ->
  dln2_adc_read ch m = (rx_result le16_to_cpu e, m1).
Proof.
  intros Hen H. unfold dln2_adc_read, bind, get_dln2.
  destruct (Z.eqb_spec (chans_enabled (adc m)) 0); [contradiction|].
  unfold ret at 1. cbv beta iota.
  rewrite (dln2_transfer_run _ _ _ 2 _ _ H).
  destruct (issue_facts _ _ _ _ _ H) as (Hc & _).
  unfold rx_result, ret. rewrite Hc. cbn [min_rsp_len].
  change 2 with (Z.of_nat 2). rewrite short_firstn.
  destruct (ev_ret e <? 0); [reflexivity|].
  destruct (Z.ltb_spec (Z.of_nat (length (ev_rsp e))) (Z.of_nat 2));
    [reflexivity|].
  rewrite le16_to_cpu_firstn by lia. reflexivity.
Qed.

Lemma dln2_adc_read_uninit_run m ch r0 m1 :
  chans_enabled (adc m) = 0 ->
  dln2_adc_set_port_enabled true m = (r0, m1) ->
  dln2_adc_read ch m
  = if r0 <? 0 then (r0, m1) else dln2_adc_read ch (mark_enabled m1).
Proof.
  intros Hen H. unfold dln2_adc_read at 1. unfold bind, get_dln2.
  rewrite Hen. change (0 =? 0) with true. cbv beta iota.
  rewrite H. destruct (r0 <? 0); [reflexivity|].
  unfold dln2_adc_read, bind, get_dln2, set_chans_enabled, ret, mark_enabled.
  reflexivity.
Qed.

Lemma dln2_adc_read_run m ch r m' :
  0 < EPROTO ->
  dln2_adc_read ch m = (r, m') ->
  exists pre e,
    log m' = log m ++ pre ++ [e] /\ Forall step_ok pre /\
    ((chans_enabled (adc m) <> 0 /\ pre = [] /\ adc m' = adc m /\
      ev_cmd e = DLN2_ADC_CHANNEL_GET_VAL /\
      ev_req e = dln2_adc_port_chan (port (adc m)) ch /\
      r = rx_result le16_to_cpu e) \/
     (chans_enabled (adc m) = 0 /\ adc m' = adc m /\
      step_failed e /\ r = err_of e /\ r < 0 /\
      exists rest,
        requests (pre ++ [e]) ++ rest
        = enable_script (port (adc m)) (reported_count (pre ++ [e]))
                        DLN2_ADC_ENABLE) \/
     (chans_enabled (adc m) = 0 /\ adc m' = enabled_adc (adc m) /\
      requests pre
      = enable_script (port (adc m)) (reported_count pre) DLN2_ADC_ENABLE /\
      ev_cmd e = DLN2_ADC_CHANNEL_GET_VAL /\
      ev_req e = dln2_adc_port_chan (port (adc m)) ch /\
      r = rx_result le16_to_cpu e)).
Proof.
  intros HE H.
  destruct (Z.eq_dec (chans_enabled (adc m)) 0) as [Hen | Hen].
  - destruct (dln2_adc_set_port_enabled true m) as [r0 m1] eqn:Es.
    rewrite (dln2_adc_read_uninit_run _ _ _ _ Hen Es) in H.
    apply (dln2_adc_set_port_enabled_run _ _ _ _ HE) in Es.
    destruct Es as (Ha & pre & e & Hl & Hpre & Hrest & Hout).
    destruct Hout as [(Hf & Hr & Hneg) | (Hok & Hr & Hreq)].
    + destruct (Z.ltb_spec r0 0); [|lia]. inversion H; subst r m'.
      exists pre, e. split; [assumption|]. split; [assumption|].
      right; left. auto 10.
    + subst r0. change (0 <? 0) with false in H.
      destruct (issue (mark_enabled m1) DLN2_ADC_CHANNEL_GET_VAL
                  (dln2_adc_port_chan (port (adc (mark_enabled m1))) ch))
        as [gv m2] eqn:Eg.
      assert (Hen1 : chans_enabled (adc (mark_enabled m1)) <> 0)
        by (simpl; lia).
      rewrite (dln2_adc_read_enabled_run _ _ _ _ Hen1 Eg) in H.
      inversion H; subst r m'.
      destruct (issue_facts _ _ _ _ _ Eg) as (Hgc & Hgq & Hga & Hgl).
      simpl in Hgq, Hga, Hgl. rewrite Ha in Hgq, Hga.
      exists (pre ++ [e]), gv. rewrite Hgl, Hl, <- !app_assoc.
      split; [reflexivity|]. split.
      { apply Forall_app. split; [assumption | constructor; auto]. }
      right; right. auto 10.
  - destruct (issue m DLN2_ADC_CHANNEL_GET_VAL
                (dln2_adc_port_chan (port (adc m)) ch)) as [gv m1] eqn:Eg.
    rewrite (dln2_adc_read_enabled_run _ _ _ _ Hen Eg) in H.
    inversion H; subst r m'.
    destruct (issue_facts _ _ _ _ _ Eg) as (Hgc & Hgq & Hga & Hgl).
    exists [], gv. split; [assumption|]. split; [constructor|].
    left. auto 10.
Qed.

Lemma reported_count_app pre l :
  pre <> [] -> reported_count (pre ++ l) = reported_count pre.
Proof. destruct pre; [contradiction | reflexivity]. Qed.

Lemma script_splits_last p n pc steps :
  requests steps = enable_script p n pc ->
  exists pre pe, steps = pre ++ [pe] /\ ev_cmd pe = pc /\ ev_req pe = [u8 p].
Proof.
  intros H. destruct steps as [|x steps']; [discriminate|].
  destruct (@exists_last _ (x :: steps')) as (pre & pe & Hq); [discriminate|].
  exists pre, pe. split; [assumption|].
  rewrite Hq, requests_app in H. unfold enable_script in H.
  rewrite 2 app_comm_cons in H. apply app_inj_tail in H.
  destruct H as [_ H]. inversion H. auto.
Qed.

Lemma short_is_failure e : short_response e -> step_failed e.
Proof. unfold step_failed. auto. Qed.

Lemma short_err_of e : short_response e -> err_of e = - EPROTO.
Proof.
  unfold short_response, err_of. intros [H _].
  destruct (Z.ltb_spec (ev_ret e) 0); [lia | reflexivity].
Qed.

Lemma err_of_negative e : 0 < EPROTO -> step_failed e -> err_of e < 0.
Proof.
  intros HE Hf. unfold err_of.
  destruct (Z.ltb_spec (ev_ret e) 0); lia.
Qed.

Lemma rx_result_cases decode e :
  (step_failed e /\ rx_result decode e = err_of e) \/
  (step_ok e /\ rx_result decode e = decode (ev_rsp e)).
Proof.
  unfold rx_result, err_of, step_failed, step_ok, transport_failed,
    short_response.
  destruct (Z.ltb_spec (ev_ret e) 0); [left; auto|].
  destruct (Z.ltb_spec (Z.of_nat (length (ev_rsp e)))
                       (min_rsp_len (ev_cmd e))); [left | right]; auto.
Qed.

Lemma script_has_no_get_val p n pre e rest :
  requests (pre ++ [e]) ++ rest = enable_script p n DLN2_ADC_ENABLE ->
  ev_cmd e <> DLN2_ADC_CHANNEL_GET_VAL.
Proof.
  intros Hrest Hc.
  assert (Hin : In (ev_cmd e, ev_req e) (requests (pre ++ [e]) ++ rest)).
  { apply in_or_app; left; apply In_requests.
    apply in_or_app; right; left; reflexivity. }
  rewrite Hrest in Hin. apply enable_script_cmds in Hin.
  intuition congruence.
Qed.

(** ** The claims *)

(** C3.  The first read on a context that is not yet enabled runs the
    enable sequence: what goes over the transport is always an initial
    part of GetChannelCount, SetResolution with 10 bits, ChannelEnable for
    the channels 0 to count-1 in increasing order, PortEnable, and then
    the ChannelGetValue of the read; and when the read leaves the enabled
    flag set, the whole sequence was issued, every step of it went
    through, PortEnable last among them, before the flag was written.
    The commands are really issued, one after the other, as long as they
    go through: either the whole sequence was issued, every step of it
    went through, the ChannelGetValue followed and the flag is 1; or the
    read made at least one call, stopped at the first step that failed,
    and the flag is still 0. *)
Theorem enable_sequence_in_order m ch r m' :
  0 < EPROTO ->
  chans_enabled (adc m) = 0 ->
  dln2_adc_read ch m = (r, m') ->
  exists evs,
    log m' = log m ++ evs /\
    (exists rest,
        requests evs ++ rest
        = enable_script (port (adc m)) (reported_count evs) DLN2_ADC_ENABLE
          ++ [(DLN2_ADC_CHANNEL_GET_VAL,
               dln2_adc_port_chan (port (adc m)) ch)]) /\
    (chans_enabled (adc m') <> 0 ->
     exists steps pe gv,
       evs = steps ++ [pe; gv] /\
       requests (steps ++ [pe])
       = enable_script (port (adc m)) (reported_count evs) DLN2_ADC_ENABLE /\
       nth 1 (requests evs) (DLN2_ADC_DISABLE, [])
       = (DLN2_ADC_SET_RESOLUTION, [u8 (port (adc m)); 10]) /\
       Forall step_ok steps /\
       ev_cmd pe = DLN2_ADC_ENABLE /\ step_ok pe /\
       ev_cmd gv = DLN2_ADC_CHANNEL_GET_VAL /\
       chans_enabled (adc m') = 1) /\
    ((exists steps pe gv,
         evs = steps ++ [pe; gv] /\
         requests (steps ++ [pe])
         = (DLN2_ADC_GET_CHANNEL_COUNT, [u8 (port (adc m))])
           :: (DLN2_ADC_SET_RESOLUTION, [u8 (port (adc m)); 10])
           :: map (fun c => (DLN2_ADC_CHANNEL_ENABLE,
                             [u8 (port (adc m)); u8 c]))
                  (zrange 0 (reported_count evs))
           ++ [(DLN2_ADC_ENABLE, [u8 (port (adc m))])] /\
         Forall step_ok (steps ++ [pe]) /\
         ev_cmd pe = DLN2_ADC_ENABLE /\
         ev_cmd gv = DLN2_ADC_CHANNEL_GET_VAL /\
         ev_req gv = [u8 (port (adc m)); u8 ch] /\
         chans_enabled (adc m') = 1) \/
     (exists done e,
         evs = done ++ [e] /\
         Forall step_ok done /\
         step_failed e /\
         ev_cmd e <> DLN2_ADC_CHANNEL_GET_VAL /\
         chans_enabled (adc m') = 0 /\
         r = err_of e)).
Proof.
  intros HE Hen H.
  destruct (dln2_adc_read_run _ _ _ _ HE H) as (pre & e & Hl & Hpre & Hc).
  exists (pre ++ [e]). split; [assumption|].
  destruct Hc as [(Hne & _) | [(_ & Ha & Hf & Hr & Hneg & rest & Hrest)
                              | (_ & Ha & Hreq & Hgc & Hgq & Hr)]].
  - contradiction.
  - split.
    { exists (rest ++ [(DLN2_ADC_CHANNEL_GET_VAL,
                        dln2_adc_port_chan (port (adc m)) ch)]).
      rewrite app_assoc, Hrest. reflexivity. }
    split; [rewrite Ha; intros; contradiction|].
    right. exists pre, e.
    split; [reflexivity|]. split; [assumption|]. split; [assumption|].
    split; [exact (script_has_no_get_val _ _ _ _ _ Hrest)|].
    split; [rewrite Ha; assumption | assumption].
  - assert (Hnil : pre <> []) by (destruct pre; [discriminate | discriminate]).
    rewrite (reported_count_app _ _ Hnil).
    destruct (script_splits_last _ _ _ _ Hreq) as (steps & pe & -> & Hpc & _).
    pose proof Hpre as Hall.
    apply Forall_app in Hpre. destruct Hpre as [Hsteps Hpe].
    assert (Hflag : chans_enabled (adc m') = 1) by (rewrite Ha; reflexivity).
    split.
    { exists []. rewrite app_nil_r, requests_app, Hreq. simpl.
      rewrite Hgc, Hgq. reflexivity. }
    split.
    + intros _. exists steps, pe, e. rewrite <- app_assoc.
      split; [reflexivity|]. split; [assumption|].
      split.
      { rewrite app_assoc, requests_app, Hreq. reflexivity. }
      split; [assumption|]. split; [assumption|].
      split; [inversion Hpe; assumption|].
      split; [assumption|]. assumption.
    + left. exists steps, pe, e. rewrite <- app_assoc.
      split; [reflexivity|].
      split; [rewrite Hreq; reflexivity|].
      split; [assumption|]. split; [assumption|].
      split; [assumption|]. split; [rewrite Hgq; reflexivity | assumption].
Qed.

(** C4.  When a step of the enable sequence fails (a transport error, or a
    short response to GetChannelCount or PortEnable), nothing is issued
    after it, the driver data is as before (the enabled flag still clear),
    and the read returns the step's error; no ChannelGetValue is issued.
    A failed GetChannelCount is the only command issued, and a failed step
    other than PortEnable means PortEnable is not issued at all. *)
Theorem enable_failure_stops m ch r m' pre e post :
  0 < EPROTO ->
  chans_enabled (adc m) = 0 ->
  dln2_adc_read ch m = (r, m') ->
  log m' = log m ++ pre ++ e :: post ->
  ev_cmd e <> DLN2_ADC_CHANNEL_GET_VAL ->
  step_failed e ->
  post = [] /\
  adc m' = adc m /\ chans_enabled (adc m') = 0 /\
  r = err_of e /\ r < 0 /\
  Forall step_ok pre /\
  Forall (fun x => ev_cmd x <> DLN2_ADC_CHANNEL_GET_VAL) (pre ++ [e]) /\
  (ev_cmd e = DLN2_ADC_GET_CHANNEL_COUNT -> pre = []) /\
  (ev_cmd e <> DLN2_ADC_ENABLE ->
   Forall (fun x => ev_cmd x <> DLN2_ADC_ENABLE) (pre ++ [e])).
Proof.
  intros HE Hen H Hlog Hcmd Hfail.
  destruct (dln2_adc_read_run _ _ _ _ HE H) as (pre0 & e0 & Hl & Hpre & Hc).
  rewrite Hl in Hlog. apply app_inv_head in Hlog. symmetry in Hlog.
  assert (Hnotin : ~ In e pre0).
  { intros Hin. rewrite Forall_forall in Hpre.
    exact (step_ok_not_failed _ (Hpre _ Hin) Hfail). }
  destruct (last_split _ _ _ _ _ _ Hlog) as [(-> & -> & ->) | Hin];
    [|contradiction].
  destruct Hc as [(Hne & _) | [(_ & Ha & Hf & Hr & Hneg & rest & Hrest)
                              | (_ & _ & _ & Hgc & _)]];
    [contradiction | | contradiction].
  split; [reflexivity|]. split; [assumption|].
  split; [congruence|]. split; [assumption|]. split; [assumption|].
  split; [assumption|]. split.
  { apply Forall_forall. intros x Hx Hxc.
    assert (Hin : In (ev_cmd x, ev_req x)
                     (requests (pre0 ++ [e0]) ++ rest))
      by (apply in_or_app; left; apply In_requests; exact Hx).
    rewrite Hrest in Hin. apply enable_script_cmds in Hin.
    intuition congruence. }
  split.
  - intros Hg. exact (script_count_first _ _ true _ _ _ Hrest Hg).
  - intros Hne. exact (script_port_last _ _ true _ _ _ Hrest Hne).
Qed.

Lemma read_each_enabled chans : forall m rs m',
  chans_enabled (adc m) <> 0 ->
  read_each chans m = (rs, m') ->
  adc m' = adc m /\
  exists evs,
    log m' = log m ++ evs /\
    requests evs
    = map (fun c => (DLN2_ADC_CHANNEL_GET_VAL,
                     dln2_adc_port_chan (port (adc m)) c)) chans.
Proof.
  induction chans as [|c cs IH]; intros m rs m' Hen H.
  - inversion H; subst. split; [reflexivity|].
    exists []. rewrite app_nil_r. auto.
  - cbn [read_each] in H. unfold bind in H.
    destruct (issue m DLN2_ADC_CHANNEL_GET_VAL
                (dln2_adc_port_chan (port (adc m)) c)) as [e m1] eqn:E.
    rewrite (dln2_adc_read_enabled_run _ _ _ _ Hen E) in H.
    destruct (issue_facts _ _ _ _ _ E) as (Hc & Hq & Ha & Hl).
    destruct (read_each cs m1) as [rs1 m2] eqn:E1.
    inversion H; subst rs m'.
    apply IH in E1; [|congruence].
    destruct E1 as (Ha1 & evs & Hl1 & Hr1).
    split; [congruence|].
    exists (e :: evs). rewrite Hl1, Hl, <- app_assoc.
    split; [reflexivity|].
    simpl. rewrite Hr1, Hc, Hq, Ha. reflexivity.
Qed.

(** C5.  A read that succeeds leaves the context enabled, and from then on
    every read, whatever the channel, issues one ChannelGetValue and
    nothing else: the log of the later reads is one ChannelGetValue per
    read, in order, and the flag stays set. *)
Theorem enabled_reads_only_get_value m ch r m1 chans rs m2 :
  0 < EPROTO ->
  dln2_adc_read ch m = (r, m1) ->
  0 <= r ->
  read_each chans m1 = (rs, m2) ->
  chans_enabled (adc m1) <> 0 /\
  chans_enabled (adc m2) <> 0 /\
  exists evs,
    log m2 = log m1 ++ evs /\
    requests evs
    = map (fun c => (DLN2_ADC_CHANNEL_GET_VAL,
                     dln2_adc_port_chan (port (adc m)) c)) chans /\
    Forall (fun e => ev_cmd e = DLN2_ADC_CHANNEL_GET_VAL) evs.
Proof.
  intros HE H Hr Hs.
  destruct (dln2_adc_read_run _ _ _ _ HE H) as (pre & e & Hl & Hpre & Hc).
  assert (Hen : chans_enabled (adc m1) <> 0 /\ port (adc m1) = port (adc m)).
  { destruct Hc as [(Hne & _ & Ha & _) | [(_ & _ & _ & _ & Hneg & _)
                                         | (_ & Ha & _)]].
    - rewrite Ha. auto.
    - lia.
    - rewrite Ha. simpl. split; [lia | reflexivity]. }
  destruct Hen as [Hen Hp].
  destruct (read_each_enabled _ _ _ _ Hen Hs) as (Ha2 & evs & Hl2 & Hr2).
  split; [assumption|]. split; [congruence|].
  exists evs. split; [assumption|]. rewrite Hp in Hr2. split; [assumption|].
  apply Forall_forall. intros x Hx. apply In_requests in Hx.
  rewrite Hr2 in Hx. apply in_map_iff in Hx. destruct Hx as (c & Hx & _).
  inversion Hx. reflexivity.
Qed.

Lemma dln2_adc_read_cmds m ch r m' :
  0 < EPROTO ->
  dln2_adc_read ch m = (r, m') ->
  (chans_enabled (adc m) <> 0 -> chans_enabled (adc m') <> 0) /\
  exists evs,
    log m' = log m ++ evs /\
    Forall (fun e => ev_cmd e <> DLN2_ADC_DISABLE /\
                     ev_cmd e <> DLN2_ADC_CHANNEL_DISABLE) evs.
Proof.
  intros HE H.
  destruct (dln2_adc_read_run _ _ _ _ HE H) as (pre & e & Hl & Hpre & Hc).
  split.
  - destruct Hc as [(_ & _ & Ha & _) | [(_ & Ha & _) | (_ & Ha & _)]];
      rewrite Ha; simpl; auto; lia.
  - exists (pre ++ [e]). split; [assumption|].
    destruct Hc as [(_ & -> & _ & Hgc & _)
                   | [(_ & _ & _ & _ & _ & rest & Hrest)
                     | (_ & _ & Hreq & Hgc & _)]].
    + constructor; [|constructor]. rewrite Hgc. split; discriminate.
    + apply Forall_forall. intros x Hx.
      assert (Hin : In (ev_cmd x, ev_req x)
                       (requests (pre ++ [e]) ++ rest))
        by (apply in_or_app; left; apply In_requests; exact Hx).
      rewrite Hrest in Hin. apply enable_script_cmds in Hin.
      split; intuition congruence.
    + apply Forall_app. split.
      * apply Forall_forall. intros x Hx. apply In_requests in Hx.
        rewrite Hreq in Hx. apply enable_script_cmds in Hx.
        split; intuition congruence.
      * constructor; [|constructor]. rewrite Hgc. split; discriminate.
Qed.

(** C9.  Whatever the host calls, in whatever order ([read_raw] with any
    channel and mask, [remove]), the log never holds a PortDisable or a
    ChannelDisable, a set enabled flag stays set, and [remove] itself
    changes nothing: no transport call and no write to the driver data. *)
Theorem disable_never_issued calls : forall m rs m',
  0 < EPROTO ->
  run_calls calls m = (rs, m') ->
  (chans_enabled (adc m) <> 0 -> chans_enabled (adc m') <> 0) /\
  (exists evs,
      log m' = log m ++ evs /\
      Forall (fun e => ev_cmd e <> DLN2_ADC_DISABLE /\
                       ev_cmd e <> DLN2_ADC_CHANNEL_DISABLE) evs) /\
  dln2_adc_remove m = (0, m).
Proof.
  induction calls as [|c cs IH]; intros m rs m' HE H.
  - inversion H; subst. split; [auto|]. split; [|reflexivity].
    exists []. rewrite app_nil_r. auto.
  - cbn [run_calls] in H. unfold bind in H.
    destruct (run_call c m) as [r1 m1] eqn:E1.
    destruct (run_calls cs m1) as [rs1 m2] eqn:E2.
    inversion H; subst rs m'.
    destruct (IH _ _ _ HE E2) as (Hf2 & (evs2 & Hl2 & Hall2) & _).
    assert (Hstep : (chans_enabled (adc m) <> 0 -> chans_enabled (adc m1) <> 0)
                    /\ exists evs, log m1 = log m ++ evs /\
                       Forall (fun e => ev_cmd e <> DLN2_ADC_DISABLE /\
                                 ev_cmd e <> DLN2_ADC_CHANNEL_DISABLE) evs).
    { destruct c as [chan val val2 mask|]; simpl in E1.
      - unfold dln2_adc_read_raw, bind in E1.
        destruct (mask =? IIO_CHAN_INFO_RAW).
        + destruct (dln2_adc_read (to_unsigned (channel chan)) m)
            as [r0 m0] eqn:E0.
          assert (m1 = m0) by (destruct (r0 <? 0); inversion E1; reflexivity).
          subst m0. exact (dln2_adc_read_cmds _ _ _ _ HE E0).
        + inversion E1; subst. split; [auto|].
          exists []. rewrite app_nil_r. auto.
      - inversion E1; subst. split; [auto|].
        exists []. rewrite app_nil_r. auto. }
    destruct Hstep as (Hf1 & evs1 & Hl1 & Hall1).
    split; [auto|]. split; [|reflexivity].
    exists (evs1 ++ evs2). rewrite Hl2, Hl1, app_assoc.
    split; [reflexivity|]. apply Forall_app. auto.
Qed.

(** C10.  With a mask other than [IIO_CHAN_INFO_RAW], [read_raw] returns
    [-EINVAL] and leaves everything as it was: no transport call (the log
    and the adapter are unchanged), no enable sequence (the driver data is
    unchanged), and [*val] and [*val2] keep their contents. *)
Theorem read_raw_other_mask chan val val2 mask m :
  mask <> IIO_CHAN_INFO_RAW ->
  dln2_adc_read_raw chan val val2 mask m = ((- EINVAL, val, val2), m).
Proof.
  intros H. unfold dln2_adc_read_raw.
  destruct (Z.eqb_spec mask IIO_CHAN_INFO_RAW); [contradiction | reflexivity].
Qed.

(** What a read hands back when its last transport call is a
    ChannelGetValue that the transport did not reject. *)
Lemma dln2_adc_read_value m ch r m' l e :
  0 < EPROTO ->
  dln2_adc_read ch m = (r, m') ->
  log m' = l ++ [e] ->
  ev_cmd e = DLN2_ADC_CHANNEL_GET_VAL ->
  r = rx_result le16_to_cpu e.
Proof.
  intros HE H Hlog Hcmd.
  destruct (dln2_adc_read_run _ _ _ _ HE H) as (pre & e0 & Hl & Hpre & Hc).
  rewrite Hl, app_assoc in Hlog. apply app_inj_tail in Hlog.
  destruct Hlog as [_ ->].
  destruct Hc as [(_ & _ & _ & _ & _ & Hr)
                 | [(_ & _ & _ & _ & _ & rest & Hrest)
                   | (_ & _ & _ & _ & _ & Hr)]]; try assumption.
  exfalso. exact (script_has_no_get_val _ _ _ _ _ Hrest Hcmd).
Qed.

(** C7.  The two payload bytes of a ChannelGetValue response are read as a
    little-endian 16-bit unsigned integer, for any port and any channel:
    bytes [b0], [b1] give [b0 + 256 * b1], and [0xFF], [0x03] give 1023. *)
Theorem get_value_little_endian m ch r m' l e :
  0 < EPROTO ->
  dln2_adc_read ch m = (r, m') ->
  log m' = l ++ [e] ->
  ev_cmd e = DLN2_ADC_CHANNEL_GET_VAL ->
  0 <= ev_ret e ->
  (forall b0 b1 rest,
      ev_rsp e = b0 :: b1 :: rest -> r = byte_val b0 + 256 * byte_val b1) /\
  (ev_rsp e = [xff; x03] -> r = 1023).
Proof.
  intros HE H Hlog Hcmd Hret.
  rewrite (dln2_adc_read_value _ _ _ _ _ _ HE H Hlog Hcmd).
  assert (Hgen : forall b0 b1 rest,
             ev_rsp e = b0 :: b1 :: rest ->
             rx_result le16_to_cpu e = byte_val b0 + 256 * byte_val b1).
  { intros b0 b1 rest Hrsp. unfold rx_result.
    rewrite Hcmd, Hrsp. cbn [min_rsp_len].
    destruct (Z.ltb_spec (ev_ret e) 0); [lia|].
    destruct (Z.ltb_spec (Z.of_nat (length (b0 :: b1 :: rest))) 2);
      [simpl in *; lia|].
    apply le16_to_cpu_value. }
  split; [exact Hgen|].
  intros Hrsp. rewrite (Hgen _ _ _ Hrsp). reflexivity.
Qed.

(** C8, as the code has it.  A successful read returns the 16-bit field of
    the ChannelGetValue response as delivered, a value from 0 to 65535; no
    bit is masked off.  The value is at most 1023 exactly when the six
    upper bits of the field are clear, that is when the adapter keeps to
    the 10-bit resolution it was configured with. *)
Theorem raw_value_sixteen_bits m ch r m' :
  0 < EPROTO ->
  dln2_adc_read ch m = (r, m') ->
  0 <= r ->
  exists l e b0 b1 rest,
    log m' = l ++ [e] /\
    ev_cmd e = DLN2_ADC_CHANNEL_GET_VAL /\
    ev_rsp e = b0 :: b1 :: rest /\
    r = byte_val b0 + 256 * byte_val b1 /\
    0 <= r <= 65535 /\
    (r <= 1023 <-> byte_val b1 <= 3).
Proof.
  intros HE H Hr.
  destruct (dln2_adc_read_run _ _ _ _ HE H) as (pre & e & Hl & Hpre & Hc).
  assert (Hgv : ev_cmd e = DLN2_ADC_CHANNEL_GET_VAL /\
                r = rx_result le16_to_cpu e).
  { destruct Hc as [(_ & _ & _ & Hgc & _ & Hres)
                   | [(_ & _ & _ & _ & Hneg & _)
                     | (_ & _ & _ & Hgc & _ & Hres)]]; auto. lia. }
  destruct Hgv as [Hgc Hres].
  unfold rx_result in Hres. rewrite Hgc in Hres. cbn [min_rsp_len] in Hres.
  destruct (Z.ltb_spec (ev_ret e) 0); [lia|].
  destruct (Z.ltb_spec (Z.of_nat (length (ev_rsp e))) 2); [lia|].
  destruct (ev_rsp e) as [|b0 [|b1 rest]] eqn:Hrsp; simpl in *; try lia.
  rewrite le16_to_cpu_value in Hres.
  pose proof (byte_val_range b0). pose proof (byte_val_range b1).
  exists (log m ++ pre), e, b0, b1, rest.
  rewrite <- app_assoc. repeat split; auto; lia.
Qed.

(** C2, as the code has it.  The read does no range check on the channel
    index.  For any index, in 0..7 or not, a read issues at least one
    transport call and fails only when one of its transport calls fails;
    when the last call, the ChannelGetValue with the index modulo 256 as
    its channel byte, goes through, the read returns [IIO_VAL_INT] with
    the 16-bit value read in [*val].  On an enabled context that
    ChannelGetValue is the one call made.  What keeps the index in 0..7 is
    the channel table handed to the host, which lists the indices 0 to 7
    and no other. *)
Theorem read_has_no_range_check chan val val2 m res m' :
  0 < EPROTO ->
  dln2_adc_read_raw chan val val2 IIO_CHAN_INFO_RAW m = (res, m') ->
  (exists evs e,
      log m' = log m ++ evs ++ [e] /\
      Forall step_ok evs /\
      ((step_ok e /\
        ev_cmd e = DLN2_ADC_CHANNEL_GET_VAL /\
        ev_req e = [u8 (port (adc m)); u8 (channel chan)] /\
        res = (IIO_VAL_INT, le16_to_cpu (ev_rsp e), val2)) \/
       (step_failed e /\ res = (- EINVAL, val, val2)))) /\
  (chans_enabled (adc m) <> 0 ->
   exists e,
     log m' = log m ++ [e] /\
     ev_cmd e = DLN2_ADC_CHANNEL_GET_VAL /\
     ev_req e = [u8 (port (adc m)); u8 (channel chan)] /\
     (step_ok e -> res = (IIO_VAL_INT, le16_to_cpu (ev_rsp e), val2)) /\
     (step_failed e -> res = (- EINVAL, val, val2))) /\
  map channel dln2_adc_iio_channels = [0; 1; 2; 3; 4; 5; 6; 7] /\
  Forall (fun c => 0 <= channel c < DLN2_ADC_MAX_CHANNELS)
         dln2_adc_iio_channels.
Proof.
  intros HE H. unfold dln2_adc_read_raw, bind in H.
  rewrite Z.eqb_refl in H.
  destruct (dln2_adc_read (to_unsigned (channel chan)) m) as [r0 m0] eqn:E0.
  destruct (dln2_adc_read_run _ _ _ _ HE E0) as (pre & e & Hl & Hpre & Hc).
  assert (Hq : dln2_adc_port_chan (port (adc m)) (to_unsigned (channel chan))
               = [u8 (port (adc m)); u8 (channel chan)]).
  { unfold dln2_adc_port_chan. rewrite u8_to_unsigned. reflexivity. }
  (* the result of [read_raw] in terms of the last call *)
  assert (Hrx : r0 = rx_result le16_to_cpu e ->
                (step_ok e -> res = (IIO_VAL_INT, le16_to_cpu (ev_rsp e), val2))
                /\ (step_failed e -> res = (- EINVAL, val, val2))).
  { intros Hr.
    destruct (rx_result_cases le16_to_cpu e) as [(Hf & Hx) | (Hok & Hx)];
      rewrite Hx in Hr.
    - pose proof (err_of_negative _ HE Hf) as Hneg.
      destruct (Z.ltb_spec r0 0); [|lia].
      inversion H; subst. split; [|reflexivity].
      intros Hok. destruct (step_ok_not_failed _ Hok Hf).
    - assert (Hnn : 0 <= le16_to_cpu (ev_rsp e)).
      { unfold le16_to_cpu.
        pose proof (byte_val_range (nth 0 (ev_rsp e) x00)).
        pose proof (byte_val_range (nth 1 (ev_rsp e) x00)).
        rewrite lor_shiftl_8 by lia. lia. }
      destruct (Z.ltb_spec r0 0); [lia|].
      inversion H; subst. split; [reflexivity|].
      intros Hf. destruct (step_ok_not_failed _ Hok Hf). }
  assert (Hm : m' = m0) by (destruct (r0 <? 0); inversion H; reflexivity).
  subst m0.
  split; [|split].
  - exists pre, e. split; [assumption|]. split; [assumption|].
    destruct Hc as [(_ & _ & _ & Hgc & Hgq & Hr)
                   | [(_ & _ & Hf & _ & Hneg & _)
                     | (_ & _ & _ & Hgc & Hgq & Hr)]].
    + destruct (Hrx Hr) as [Hok Hfail]. rewrite Hq in Hgq.
      destruct (step_ok_or_failed e) as [Ho | Hf]; [left | right]; auto.
    + right. split; [assumption|].
      destruct (Z.ltb_spec r0 0); [|lia]. inversion H; reflexivity.
    + destruct (Hrx Hr) as [Hok Hfail]. rewrite Hq in Hgq.
      destruct (step_ok_or_failed e) as [Ho | Hf]; [left | right]; auto.
  - intros Hen.
    destruct Hc as [(_ & -> & _ & Hgc & Hgq & Hr)
                   | [(Hz & _) | (Hz & _)]]; try contradiction.
    exists e. split; [assumption|]. split; [assumption|].
    rewrite Hq in Hgq. split; [assumption|]. exact (Hrx Hr).
  - split; [reflexivity|].
    unfold dln2_adc_iio_channels, DLN2_ADC_MAX_CHANNELS.
    repeat constructor; simpl; lia.
Qed.

(** Every failure of the underlying read comes out of [read_raw] as
    [-EINVAL]: the [break] of line 178 leaves the switch for the final
    [return -EINVAL]. *)
Lemma read_raw_collapses_errors chan val val2 m r m' :
  dln2_adc_read (to_unsigned (channel chan)) m = (r, m') ->
  r < 0 ->
  dln2_adc_read_raw chan val val2 IIO_CHAN_INFO_RAW m
  = ((- EINVAL, val, val2), m').
Proof.
  intros H Hr. unfold dln2_adc_read_raw, bind.
  rewrite Z.eqb_refl, H.
  destruct (Z.ltb_spec r 0); [reflexivity | lia].
Qed.

Lemma short_rx_result decode e :
  short_response e -> rx_result decode e = - EPROTO.
Proof.
  unfold short_response, rx_result. intros [H1 H2].
  destruct (Z.ltb_spec (ev_ret e) 0); [lia|].
  destruct (Z.ltb_spec (Z.of_nat (length (ev_rsp e)))
                       (min_rsp_len (ev_cmd e))); [reflexivity | lia].
Qed.

(** C6.  A response shorter than the command declares makes the operation
    fail with [-EPROTO]: an error of its own, where the transport itself
    reported none, and never a decoded value.  This holds for
    GetChannelCount, for PortEnable and PortDisable, and for
    ChannelGetValue.  The failing operation writes nothing to the driver
    data: after a short GetChannelCount, PortEnable or PortDisable
    response the data is as before the call, and after a short
    ChannelGetValue response it is as it was when ChannelGetValue was
    issued (as before the read, or with the flag set by an enable sequence
    that went through first).  A GetChannelCount response of no bytes is
    such a failure, not a count of zero. *)
Theorem short_response_is_protocol_error :
  0 < EPROTO ->
  (forall m r m' l e,
      dln2_adc_get_chan_count m = (r, m') ->
      log m' = l ++ [e] ->
      short_response e ->
      r = - EPROTO /\ r < 0 /\ r <> ev_ret e /\ adc m' = adc m) /\
  (forall enable m r m' l e,
      dln2_adc_set_port_enabled enable m = (r, m') ->
      log m' = l ++ [e] ->
      short_response e ->
      r = - EPROTO /\ r < 0 /\ r <> ev_ret e /\ adc m' = adc m) /\
  (forall ch m r m' l e,
      dln2_adc_read ch m = (r, m') ->
      log m' = l ++ [e] ->
      short_response e ->
      r = - EPROTO /\ r < 0 /\ r <> ev_ret e /\
      (ev_cmd e <> DLN2_ADC_CHANNEL_GET_VAL -> adc m' = adc m) /\
      (chans_enabled (adc m) <> 0 -> adc m' = adc m) /\
      (ev_cmd e = DLN2_ADC_CHANNEL_GET_VAL ->
       chans_enabled (adc m) = 0 ->
       adc m' = enabled_adc (adc m) /\
       exists steps,
         l = log m ++ steps /\ Forall step_ok steps /\
         requests steps
         = enable_script (port (adc m)) (reported_count steps)
                         DLN2_ADC_ENABLE)) /\
  (forall m r m' l e,
      dln2_adc_get_chan_count m = (r, m') ->
      log m' = l ++ [e] ->
      0 <= ev_ret e -> ev_rsp e = [] ->
      r = - EPROTO /\ r <> 0 /\ adc m' = adc m).
Proof.
  intros HE.
  assert (Hcount : forall m r m' l e,
             dln2_adc_get_chan_count m = (r, m') ->
             log m' = l ++ [e] ->
             short_response e ->
             r = - EPROTO /\ r < 0 /\ r <> ev_ret e /\ adc m' = adc m).
  { intros m r m' l e H Hlog Hshort.
    destruct (issue m DLN2_ADC_GET_CHANNEL_COUNT [u8 (port (adc m))])
      as [g m1] eqn:Eg.
    rewrite (dln2_adc_get_chan_count_run _ _ _ Eg) in H.
    inversion H; subst r m'.
    destruct (issue_facts _ _ _ _ _ Eg) as (_ & _ & Ha & Hl).
    rewrite Hl in Hlog. apply app_inj_tail in Hlog. destruct Hlog as [_ ->].
    rewrite (short_rx_result _ _ Hshort).
    destruct Hshort as [Hret _]. repeat split; auto; lia. }
  split; [exact Hcount|]. split; [|split].
  - intros enable m r m' l e H Hlog Hshort.
    destruct (dln2_adc_set_port_enabled_run _ _ _ _ HE H)
      as (Ha & pre & e0 & Hl & Hpre & _ & Hout).
    rewrite Hl, app_assoc in Hlog. apply app_inj_tail in Hlog.
    destruct Hlog as [_ ->].
    destruct Hout as [(_ & Hr & Hneg) | (Hok & _)].
    + rewrite (short_err_of _ Hshort) in Hr.
      destruct Hshort as [Hret _]. repeat split; auto; lia.
    + exfalso. exact (step_ok_not_failed _ Hok (short_is_failure _ Hshort)).
  - intros ch m r m' l e H Hlog Hshort.
    destruct (dln2_adc_read_run _ _ _ _ HE H) as (pre & e0 & Hl & Hpre & Hc).
    rewrite Hl, app_assoc in Hlog. apply app_inj_tail in Hlog.
    destruct Hlog as [<- ->].
    pose proof (short_rx_result le16_to_cpu _ Hshort) as Hrx.
    pose proof (short_err_of _ Hshort) as Herr.
    destruct Hshort as [Hret _].
    destruct Hc as [(Hnz & _ & Ha & _ & _ & Hr)
                   | [(_ & Ha & _ & Hr & _ & rest & Hrest)
                     | (Hz & Ha & Hreq & Hgc & _ & Hr)]].
    + rewrite Hrx in Hr.
      split; [assumption|]. split; [lia|]. split; [lia|].
      split; [auto|]. split; [auto|]. intros _ Hz. contradiction.
    + rewrite Herr in Hr.
      split; [assumption|]. split; [lia|]. split; [lia|].
      split; [auto|]. split; [auto|]. intros Hgc _.
      exfalso. exact (script_has_no_get_val _ _ _ _ _ Hrest Hgc).
    + rewrite Hrx in Hr.
      split; [assumption|]. split; [lia|]. split; [lia|].
      split; [intros Hn; contradiction|].
      split; [intros Hn; contradiction|].
      intros _ _. split; [assumption|]. exists pre. auto.
  - intros m r m' l e H Hlog Hret Hrsp.
    assert (Hshort : short_response e).
    { unfold short_response. split; [assumption|]. rewrite Hrsp.
      destruct (issue m DLN2_ADC_GET_CHANNEL_COUNT [u8 (port (adc m))])
        as [g m1] eqn:Eg.
      rewrite (dln2_adc_get_chan_count_run _ _ _ Eg) in H.
      inversion H; subst r m'.
      destruct (issue_facts _ _ _ _ _ Eg) as (Hc & _ & _ & Hl).
      rewrite Hl in Hlog. apply app_inj_tail in Hlog. destruct Hlog as [_ ->].
      rewrite Hc. simpl. lia. }
    destruct (Hcount _ _ _ _ _ H Hlog Hshort) as (Hr & Hneg & _ & Ha).
    repeat split; auto; lia.
Qed.

End Properties.

(** * Further properties of the driver *)

Section Further.

Context {K : kernel_consts} {T : transport}.

(** ** Helpers *)

Lemma u8_range z : 0 <= u8 z < 256.
Proof. unfold u8. change (2 ^ 8) with 256. apply Z.mod_pos_bound. lia. Qed.

Lemma le16_to_cpu_range l : 0 <= le16_to_cpu l <= 65535.
Proof.
  unfold le16_to_cpu.
  pose proof (byte_val_range (nth 0 l x00)).
  pose proof (byte_val_range (nth 1 l x00)).
  rewrite lor_shiftl_8 by lia. lia.
Qed.

Lemma step_okb_spec e : step_okb e = true <-> step_ok e.
Proof.
  unfold step_okb, step_ok. rewrite andb_true_iff, Z.leb_le, Z.leb_le.
  tauto.
Qed.

Lemma nth_error_zrange n : forall i k,
  (k < n)%nat -> nth_error (zrange i n) k = Some (i + Z.of_nat k).
Proof.
  induction n as [|n IH]; intros i k Hk; [lia|].
  destruct k as [|k]; simpl.
  - f_equal. lia.
  - rewrite IH by lia. f_equal. lia.
Qed.

Lemma port_enable_count_app a b :
  port_enable_count (a ++ b)
  = (port_enable_count a + port_enable_count b)%nat.
Proof. unfold port_enable_count. rewrite filter_app, length_app. reflexivity. Qed.

Lemma port_enable_count_none l :
  Forall (fun x => ev_cmd x <> DLN2_ADC_ENABLE) l -> port_enable_count l = O.
Proof.
  unfold port_enable_count. induction 1 as [|x l Hx _ IH]; [reflexivity|].
  simpl. unfold port_enabledb at 1.
  destruct (ev_cmd x); try exact IH. contradiction.
Qed.

Lemma port_enable_count_failed e :
  step_failed e -> port_enable_count [e] = O.
Proof.
  intros Hf. unfold port_enable_count. simpl. unfold port_enabledb.
  destruct (step_okb e) eqn:Hb.
  - apply step_okb_spec in Hb. destruct (step_ok_not_failed _ Hb Hf).
  - destruct (ev_cmd e); reflexivity.
Qed.

(** The port command occurs in the script only at its end. *)
Lemma script_port_only_last p n enable pre e rest :
  requests (pre ++ [e]) ++ rest = enable_script p n (port_cmd enable) ->
  Forall (fun x => ev_cmd x <> port_cmd enable) pre.
Proof.
  intros H. unfold enable_script in H. rewrite 2 app_comm_cons in H.
  assert (Hbody : forall x, In x pre ->
             In (ev_cmd x, ev_req x)
                ((DLN2_ADC_GET_CHANNEL_COUNT, [u8 p])
                 :: (DLN2_ADC_SET_RESOLUTION,
                     dln2_adc_port_chan p DLN2_ADC_DATA_BITS)
                 :: map (chan_enable_req p) (zrange 0 n))).
  { intros x Hx. destruct rest as [|y rest'].
    - rewrite app_nil_r, requests_app in H. apply app_inj_tail in H.
      destruct H as [H _]. rewrite <- H. apply In_requests. exact Hx.
    - destruct (@exists_last _ (y :: rest')) as (q & z & Hq);
        [discriminate|].
      rewrite Hq, app_assoc in H. apply app_inj_tail in H.
      destruct H as [H _]. rewrite <- H.
      apply in_or_app. left. apply In_requests.
      apply in_or_app. left. exact Hx. }
  apply Forall_forall. intros x Hx Hc.
  apply Hbody in Hx. apply enable_script_body_cmds in Hx.
  destruct enable; simpl in Hc; intuition congruence.
Qed.

Lemma enable_script_wire_ok p n enable :
  Forall (wire_ok p) (enable_script p n (port_cmd enable)).
Proof.
  unfold enable_script. constructor; [reflexivity|].
  constructor.
  { exists (u8 DLN2_ADC_DATA_BITS). split; [apply u8_range | reflexivity]. }
  apply Forall_app. split.
  - apply Forall_forall. intros x Hx. apply in_map_iff in Hx.
    destruct Hx as (k & <- & _).
    exists (u8 k). split; [apply u8_range | reflexivity].
  - constructor; [|constructor].
    destruct enable; reflexivity.
Qed.

(** ** The steps on their own *)

(** X1.  [dln2_adc_get_chan_count] makes one transport call,
    GetChannelCount with the port byte, and writes nothing to the driver
    data.  When the call fails the result is the step's error, a negative
    number; when it goes through the result is the first byte of the
    response, from 0 to 255, whatever follows that byte. *)
Theorem get_chan_count_result m r m' :
  0 < EPROTO ->
  dln2_adc_get_chan_count m = (r, m') ->
  adc m' = adc m /\
  exists e,
    log m' = log m ++ [e] /\
    ev_cmd e = DLN2_ADC_GET_CHANNEL_COUNT /\
    ev_req e = [u8 (port (adc m))] /\
    (step_failed e -> r = err_of e /\ r < 0) /\
    (step_ok e ->
     0 <= r <= 255 /\
     forall b rest, ev_rsp e = b :: rest -> r = byte_val b).
Proof.
  intros HE H.
  destruct (issue m DLN2_ADC_GET_CHANNEL_COUNT [u8 (port (adc m))])
    as [g m1] eqn:Eg.
  rewrite (dln2_adc_get_chan_count_run _ _ _ Eg) in H.
  inversion H; subst r m'.
  destruct (issue_facts _ _ _ _ _ Eg) as (Hc & Hq & Ha & Hl).
  split; [assumption|]. exists g. split; [assumption|].
  split; [assumption|]. split; [assumption|].
  destruct (rx_result_cases count_of g) as [(Hf & ->) | (Hok & ->)].
  - split.
    + intros _. split; [reflexivity | apply err_of_negative; assumption].
    + intros Hok. destruct (step_ok_not_failed _ Hok Hf).
  - split.
    + intros Hf. destruct (step_ok_not_failed _ Hok Hf).
    + intros _. unfold count_of. split; [apply byte_val_range|].
      intros b rest ->. reflexivity.
Qed.

(** X2.  The two send-only steps, [dln2_adc_set_port_resolution] and
    [dln2_adc_set_chan_enabled], make one transport call each, with the
    port byte followed by the resolution (10) or by the channel reduced to
    a byte; [enable] picks ChannelEnable or ChannelDisable.  The response
    is not looked at.  The result is the transport's code when that is
    negative and 0 otherwise, so never positive; the driver data is left
    alone. *)
Theorem send_only_step_results m :
  (forall r m',
      dln2_adc_set_port_resolution m = (r, m') ->
      adc m' = adc m /\
      exists e,
        log m' = log m ++ [e] /\
        ev_cmd e = DLN2_ADC_SET_RESOLUTION /\
        ev_req e = [u8 (port (adc m)); 10] /\
        r <= 0 /\ (r < 0 <-> ev_ret e < 0) /\ (r < 0 -> r = ev_ret e)) /\
  (forall channel (enable : bool) r m',
      dln2_adc_set_chan_enabled channel enable m = (r, m') ->
      adc m' = adc m /\
      exists e,
        log m' = log m ++ [e] /\
        ev_cmd e = (if enable then DLN2_ADC_CHANNEL_ENABLE
                    else DLN2_ADC_CHANNEL_DISABLE) /\
        ev_req e = [u8 (port (adc m)); u8 channel] /\
        r <= 0 /\ (r < 0 <-> ev_ret e < 0) /\ (r < 0 -> r = ev_ret e)).
Proof.
  assert (Htx : forall e, tx_result e <= 0 /\
                          (tx_result e < 0 <-> ev_ret e < 0) /\
                          (tx_result e < 0 -> tx_result e = ev_ret e)).
  { intros e. unfold tx_result. destruct (Z.ltb_spec (ev_ret e) 0); lia. }
  split.
  - intros r m' H.
    destruct (issue m DLN2_ADC_SET_RESOLUTION
                (dln2_adc_port_chan (port (adc m)) DLN2_ADC_DATA_BITS))
      as [e m1] eqn:E.
    rewrite (dln2_adc_set_port_resolution_run _ _ _ E) in H.
    inversion H; subst r m'.
    destruct (issue_facts _ _ _ _ _ E) as (Hc & Hq & Ha & Hl).
    split; [assumption|]. exists e.
    split; [assumption|]. split; [assumption|].
    split; [rewrite Hq; reflexivity | apply Htx].
  - intros channel enable r m' H.
    destruct (issue m (if enable then DLN2_ADC_CHANNEL_ENABLE
                       else DLN2_ADC_CHANNEL_DISABLE)
                (dln2_adc_port_chan (port (adc m)) channel))
      as [e m1] eqn:E.
    rewrite (dln2_adc_set_chan_enabled_run _ _ _ _ _ E) in H.
    inversion H; subst r m'.
    destruct (issue_facts _ _ _ _ _ E) as (Hc & Hq & Ha & Hl).
    split; [assumption|]. exists e.
    split; [assumption|]. split; [assumption|].
    split; [rewrite Hq; reflexivity | apply Htx].
Qed.

(** X3.  [dln2_adc_set_port_enabled] treats its [enable] argument only in
    its last command.  With either value it queries the count, sets the
    resolution and sends ChannelEnable for every channel; it never sends
    ChannelDisable, and closes with PortEnable or, for [enable = false],
    PortDisable.  The result is 0 when every step went through and the
    failed step's negative error otherwise; a positive code of the
    transport never comes out. *)
Theorem set_port_enabled_script enable m r m' :
  0 < EPROTO ->
  dln2_adc_set_port_enabled enable m = (r, m') ->
  adc m' = adc m /\ r <= 0 /\
  exists evs,
    log m' = log m ++ evs /\
    Forall (fun e => ev_cmd e <> DLN2_ADC_CHANNEL_DISABLE) evs /\
    (r = 0 ->
     Forall step_ok evs /\
     requests evs
     = enable_script (port (adc m)) (reported_count evs)
         (if enable then DLN2_ADC_ENABLE else DLN2_ADC_DISABLE)) /\
    (r < 0 ->
     exists pre e, evs = pre ++ [e] /\ Forall step_ok pre /\
                   step_failed e /\ r = err_of e /\
                   Forall (fun x => ev_cmd x <> DLN2_ADC_ENABLE /\
                                    ev_cmd x <> DLN2_ADC_DISABLE) pre).
Proof.
  intros HE H.
  destruct (dln2_adc_set_port_enabled_run _ _ _ _ HE H)
    as (Ha & pre & e & Hl & Hpre & (rest & Hrest) & Hout).
  split; [assumption|].
  assert (Hnd : Forall (fun x => ev_cmd x <> DLN2_ADC_CHANNEL_DISABLE)
                       (pre ++ [e])).
  { apply Forall_forall. intros x Hx Hc.
    assert (Hin : In (ev_cmd x, ev_req x) (requests (pre ++ [e]) ++ rest))
      by (apply in_or_app; left; apply In_requests; exact Hx).
    rewrite Hrest in Hin. apply enable_script_cmds in Hin.
    destruct enable; simpl in Hin; intuition congruence. }
  assert (Hlast : Forall (fun x => ev_cmd x <> DLN2_ADC_ENABLE /\
                                   ev_cmd x <> DLN2_ADC_DISABLE) pre).
  { apply Forall_forall. intros x Hx.
    assert (Hin : In (ev_cmd x, ev_req x) (requests (pre ++ [e]) ++ rest)).
    { apply in_or_app; left; apply In_requests.
      apply in_or_app; left; exact Hx. }
    pose proof (script_port_only_last _ _ _ _ _ _ Hrest) as Hp.
    rewrite Forall_forall in Hp. specialize (Hp x Hx).
    rewrite Hrest in Hin. apply enable_script_cmds in Hin.
    destruct enable; simpl in Hin, Hp; split; intuition congruence. }
  destruct Hout as [(Hf & Hr & Hneg) | (Hok & Hr & Hreq)].
  - split; [lia|]. exists (pre ++ [e]).
    split; [assumption|]. split; [assumption|]. split; [lia|].
    intros _. exists pre, e. auto.
  - split; [lia|]. exists (pre ++ [e]).
    split; [assumption|]. split; [assumption|]. split; [|lia].
    intros _. split; [|exact Hreq].
    apply Forall_app. split; [assumption | constructor; auto].
Qed.

(** ** Reads *)

Lemma err_of_transport e : ev_ret e < 0 -> err_of e = ev_ret e.
Proof.
  intros H. unfold err_of. destruct (Z.ltb_spec (ev_ret e) 0); [reflexivity | lia].
Qed.

Lemma script_starts_with_count p n pc l rest :
  requests l ++ rest = enable_script p n pc ->
  l <> [] ->
  exists e evs, l = e :: evs /\
                ev_cmd e = DLN2_ADC_GET_CHANNEL_COUNT /\ ev_req e = [u8 p].
Proof.
  intros H Hl. destruct l as [|e evs]; [contradiction|].
  exists e, evs. unfold enable_script in H. simpl in H.
  inversion H. auto.
Qed.

(** X4.  [dln2_adc_read] hands a transport error on unchanged and stops
    there: a call of the read that the transport fails with a negative
    code is the last call of that read, every call before it went through,
    and the code is the read's result. *)
Theorem read_transport_error_verbatim m ch r m' pre e post :
  0 < EPROTO ->
  dln2_adc_read ch m = (r, m') ->
  log m' = log m ++ pre ++ e :: post ->
  ev_ret e < 0 ->
  post = [] /\ r = ev_ret e /\ Forall step_ok pre.
Proof.
  intros HE H Hlog Hneg.
  destruct (dln2_adc_read_run _ _ _ _ HE H) as (pre0 & e0 & Hl & Hpre & Hc).
  rewrite Hl in Hlog. apply app_inv_head in Hlog. symmetry in Hlog.
  assert (Hfail : step_failed e) by (left; exact Hneg).
  destruct (last_split _ _ _ _ _ _ Hlog) as [(-> & -> & ->) | Hin].
  - split; [reflexivity|]. split; [|assumption].
    destruct Hc as [(_ & _ & _ & _ & _ & Hr)
                   | [(_ & _ & _ & Hr & _) | (_ & _ & _ & _ & _ & Hr)]].
    + destruct (rx_result_cases le16_to_cpu e0) as [(_ & Hx) | (Hok & _)].
      * rewrite Hr, Hx. apply err_of_transport. assumption.
      * destruct (step_ok_not_failed _ Hok Hfail).
    + rewrite Hr. apply err_of_transport. assumption.
    + destruct (rx_result_cases le16_to_cpu e0) as [(_ & Hx) | (Hok & _)].
      * rewrite Hr, Hx. apply err_of_transport. assumption.
      * destruct (step_ok_not_failed _ Hok Hfail).
  - exfalso. rewrite Forall_forall in Hpre.
    exact (step_ok_not_failed _ (Hpre _ Hin) Hfail).
Qed.

(** X5.  A read succeeds exactly when every transport call it makes goes
    through.  Its calls are some that went through followed by a last one;
    the result is negative exactly when the last one failed, and
    non-negative exactly when it went through, in which case the last call
    is the ChannelGetValue and the result is its 16-bit payload. *)
Theorem read_succeeds_iff_steps_ok m ch r m' :
  0 < EPROTO ->
  dln2_adc_read ch m = (r, m') ->
  exists pre e,
    log m' = log m ++ pre ++ [e] /\
    Forall step_ok pre /\
    (r < 0 <-> step_failed e) /\
    (0 <= r <-> step_ok e) /\
    (0 <= r ->
     ev_cmd e = DLN2_ADC_CHANNEL_GET_VAL /\
     ev_req e = [u8 (port (adc m)); u8 ch] /\
     r = le16_to_cpu (ev_rsp e)).
Proof.
  intros HE H.
  destruct (dln2_adc_read_run _ _ _ _ HE H) as (pre & e & Hl & Hpre & Hc).
  exists pre, e. split; [assumption|]. split; [assumption|].
  assert (Hrx : ev_cmd e = DLN2_ADC_CHANNEL_GET_VAL ->
                ev_req e = [u8 (port (adc m)); u8 ch] ->
                r = rx_result le16_to_cpu e ->
                (r < 0 <-> step_failed e) /\ (0 <= r <-> step_ok e) /\
                (0 <= r ->
                 ev_cmd e = DLN2_ADC_CHANNEL_GET_VAL /\
                 ev_req e = [u8 (port (adc m)); u8 ch] /\
                 r = le16_to_cpu (ev_rsp e))).
  { intros Hgc Hgq Hr.
    pose proof (le16_to_cpu_range (ev_rsp e)) as Hrange.
    destruct (rx_result_cases le16_to_cpu e) as [(Hf & Hx) | (Hok & Hx)];
      rewrite Hx in Hr.
    - pose proof (err_of_negative _ HE Hf) as Hneg.
      split; [split; [intros _; exact Hf | intros _; lia]|].
      split; [|intros; lia].
      split; [lia|]. intros Hok. destruct (step_ok_not_failed _ Hok Hf).
    - split.
      { split; [lia|]. intros Hf. destruct (step_ok_not_failed _ Hok Hf). }
      split; [split; [auto | lia]|]. auto. }
  destruct Hc as [(_ & _ & _ & Hgc & Hgq & Hr)
                 | [(_ & _ & Hf & Hr & Hneg & _)
                   | (_ & _ & _ & Hgc & Hgq & Hr)]]; auto.
  split; [split; [intros _; exact Hf | intros _; lia]|].
  split; [|intros; lia].
  split; [lia|]. intros Hok. destruct (step_ok_not_failed _ Hok Hf).
Qed.

(** X6.  On a context not yet enabled, the flag after the read says how
    far the read got, not whether it succeeded: it is set exactly when the
    read got to issue ChannelGetValue, also when that call then fails.  A
    read that stops before ChannelGetValue fails and leaves the driver
    data as it was. *)
Theorem first_read_flag_follows_get_value m ch r m' l e :
  0 < EPROTO ->
  chans_enabled (adc m) = 0 ->
  dln2_adc_read ch m = (r, m') ->
  log m' = l ++ [e] ->
  (ev_cmd e = DLN2_ADC_CHANNEL_GET_VAL -> adc m' = enabled_adc (adc m)) /\
  (ev_cmd e <> DLN2_ADC_CHANNEL_GET_VAL -> adc m' = adc m /\ r < 0) /\
  (chans_enabled (adc m') = 1 <-> ev_cmd e = DLN2_ADC_CHANNEL_GET_VAL).
Proof.
  intros HE Hen H Hlog.
  destruct (dln2_adc_read_run _ _ _ _ HE H) as (pre & e0 & Hl & Hpre & Hc).
  rewrite Hl, app_assoc in Hlog. apply app_inj_tail in Hlog.
  destruct Hlog as [_ ->].
  destruct Hc as [(Hne & _)
                 | [(_ & Ha & _ & _ & Hneg & rest & Hrest)
                   | (_ & Ha & _ & Hgc & _)]].
  - contradiction.
  - pose proof (script_has_no_get_val _ _ _ _ _ Hrest) as Hngv.
    split; [intros Hgc; contradiction|]. split; [auto|].
    rewrite Ha, Hen. split; [discriminate | intros Hgc; contradiction].
  - split; [auto|]. split; [intros Hn; contradiction|].
    rewrite Ha. simpl. tauto.
Qed.

(** X7.  The driver keeps no record of an enable sequence that failed.  A
    first read that leaves the flag clear has failed and left the driver
    data as it was, and the next read, for whatever channel, starts over
    with GetChannelCount. *)
Theorem failed_enable_retried_from_start m ch r m1 ch2 r2 m2 :
  0 < EPROTO ->
  chans_enabled (adc m) = 0 ->
  dln2_adc_read ch m = (r, m1) ->
  chans_enabled (adc m1) = 0 ->
  dln2_adc_read ch2 m1 = (r2, m2) ->
  r < 0 /\ adc m1 = adc m /\
  exists e evs,
    log m2 = log m1 ++ e :: evs /\
    ev_cmd e = DLN2_ADC_GET_CHANNEL_COUNT /\
    ev_req e = [u8 (port (adc m))].
Proof.
  intros HE Hen H1 Hen1 H2.
  destruct (dln2_adc_read_run _ _ _ _ HE H1) as (pre & e & Hl & Hpre & Hc).
  assert (Hfirst : r < 0 /\ adc m1 = adc m).
  { destruct Hc as [(Hne & _) | [(_ & Ha & _ & _ & Hneg & _) | (_ & Ha & _)]].
    - contradiction.
    - auto.
    - rewrite Ha in Hen1. simpl in Hen1. discriminate. }
  destruct Hfirst as [Hneg Ha]. split; [assumption|]. split; [assumption|].
  destruct (dln2_adc_read_run _ _ _ _ HE H2)
    as (pre2 & e2 & Hl2 & Hpre2 & Hc2).
  rewrite Ha in Hc2.
  destruct Hc2 as [(Hne & _)
                  | [(_ & _ & _ & _ & _ & rest & Hrest)
                    | (_ & _ & Hreq & _)]].
  - rewrite <- Ha in Hne. contradiction.
  - destruct (script_starts_with_count _ _ _ (pre2 ++ [e2]) rest Hrest)
      as (x & evs & Hx & Hxc & Hxq).
    { destruct pre2; discriminate. }
    exists x, evs. rewrite Hl2, Hx. auto.
  - destruct (script_starts_with_count (port (adc m)) (reported_count pre2)
                DLN2_ADC_ENABLE pre2 []) as (x & evs & Hx & Hxc & Hxq).
    { rewrite app_nil_r. exact Hreq. }
    { intros ->. discriminate. }
    exists x, (evs ++ [e2]). rewrite Hl2, Hx. auto.
Qed.

(** X8.  The enable sequence enables as many channels as the adapter
    reports, without comparing the count with [DLN2_ADC_MAX_CHANNELS].  A
    first read that sets the flag has made count + 4 transport calls;
    the count is at most 255, and the k-th ChannelEnable carries channel
    number k itself, no index wrapping in the byte. *)
Theorem channel_enable_follows_count m ch r m' :
  0 < EPROTO ->
  chans_enabled (adc m) = 0 ->
  dln2_adc_read ch m = (r, m') ->
  chans_enabled (adc m') <> 0 ->
  exists g s cs pe gv,
    log m' = log m ++ g :: s :: cs ++ [pe; gv] /\
    ev_cmd g = DLN2_ADC_GET_CHANNEL_COUNT /\
    Z.of_nat (length cs) = count_of (ev_rsp g) /\
    (length cs <= 255)%nat /\
    length (g :: s :: cs ++ [pe; gv]) = (length cs + 4)%nat /\
    forall k, (k < length cs)%nat ->
      exists c, nth_error cs k = Some c /\
                ev_cmd c = DLN2_ADC_CHANNEL_ENABLE /\
                ev_req c = [u8 (port (adc m)); Z.of_nat k].
Proof.
  intros HE Hen H Hset.
  destruct (dln2_adc_read_run _ _ _ _ HE H) as (pre & gv & Hl & Hpre & Hc).
  destruct Hc as [(Hne & _) | [(_ & Ha & _) | (_ & _ & Hreq & _)]].
  - contradiction.
  - rewrite Ha in Hset. contradiction.
  - destruct (script_splits_last _ _ _ _ Hreq) as (body & pe & -> & _ & _).
    rewrite requests_app in Hreq. unfold enable_script in Hreq.
    rewrite 2 app_comm_cons in Hreq. apply app_inj_tail in Hreq.
    destruct Hreq as [Hreq _].
    destruct body as [|g [|s cs]]; try discriminate.
    simpl in Hreq. injection Hreq as Hgc Hgq Hsc Hsq Hcs.
    assert (Hlen : length cs
                   = Z.to_nat (byte_val (nth 0 (ev_rsp g) x00))).
    { apply (f_equal (@length _)) in Hcs. unfold requests in Hcs.
      rewrite !length_map, zrange_length in Hcs. exact Hcs. }
    pose proof (byte_val_range (nth 0 (ev_rsp g) x00)) as Hb.
    exists g, s, cs, pe, gv.
    split. { rewrite Hl. simpl. rewrite <- !app_assoc. reflexivity. }
    split; [assumption|].
    split. { unfold count_of. lia. }
    split; [lia|].
    split. { simpl. rewrite length_app. simpl. lia. }
    intros k Hk.
    destruct (nth_error cs k) as [c|] eqn:Hc.
    + exists c. split; [reflexivity|].
      assert (Hn : nth_error (requests cs) k = Some (ev_cmd c, ev_req c)).
      { unfold requests. rewrite nth_error_map, Hc. reflexivity. }
      rewrite Hcs, nth_error_map, nth_error_zrange in Hn by lia.
      simpl in Hn. unfold chan_enable_req in Hn.
      injection Hn as Hcc Hcq.
      split; [symmetry; assumption|]. rewrite <- Hcq.
      unfold dln2_adc_port_chan. do 2 f_equal.
      unfold u8. apply Z.mod_small. change (2 ^ 8) with 256. lia.
    + apply nth_error_None in Hc. lia.
Qed.

(** ** The entry points *)

Lemma dln2_adc_read_range m ch r m' :
  0 < EPROTO ->
  dln2_adc_read ch m = (r, m') ->
  0 <= r -> r <= 65535.
Proof.
  intros HE H Hr.
  destruct (dln2_adc_read_run _ _ _ _ HE H) as (pre & e & _ & _ & Hc).
  pose proof (le16_to_cpu_range (ev_rsp e)) as Hrange.
  assert (Hrx : r = rx_result le16_to_cpu e -> r <= 65535).
  { intros Hx.
    destruct (rx_result_cases le16_to_cpu e) as [(Hf & Hy) | (_ & Hy)];
      rewrite Hy in Hx; [|lia].
    pose proof (err_of_negative _ HE Hf). lia. }
  destruct Hc as [(_ & _ & _ & _ & _ & Hx)
                 | [(_ & _ & _ & _ & Hneg & _)
                   | (_ & _ & _ & _ & _ & Hx)]]; auto. lia.
Qed.

Lemma dln2_adc_read_u8 a b m :
  u8 a = u8 b -> dln2_adc_read a m = dln2_adc_read b m.
Proof.
  intros Hab.
  assert (Hen : forall m0, chans_enabled (adc m0) <> 0 ->
                           dln2_adc_read a m0 = dln2_adc_read b m0).
  { intros m0 Hne.
    destruct (issue m0 DLN2_ADC_CHANNEL_GET_VAL
                (dln2_adc_port_chan (port (adc m0)) a)) as [e m1] eqn:E.
    rewrite (dln2_adc_read_enabled_run _ _ _ _ Hne E).
    unfold dln2_adc_port_chan in E. rewrite Hab in E.
    rewrite (dln2_adc_read_enabled_run _ _ _ _ Hne E). reflexivity. }
  destruct (Z.eq_dec (chans_enabled (adc m)) 0) as [Hz | Hnz]; [|auto].
  destruct (dln2_adc_set_port_enabled true m) as [r0 m1] eqn:Es.
  rewrite 2 (dln2_adc_read_uninit_run _ _ _ _ Hz Es).
  destruct (r0 <? 0); [reflexivity|].
  apply Hen. simpl. lia.
Qed.

(** X9.  What [dln2_adc_read_raw] leaves in its out-parameters.  [*val2]
    is never written.  The return code is [IIO_VAL_INT] with [*val] the
    value [dln2_adc_read] returned, from 0 to 65535, or it is [-EINVAL]
    with [*val] as it was on entry. *)
Theorem read_raw_outputs chan val val2 mask m rc v v2 m' :
  0 < EPROTO ->
  dln2_adc_read_raw chan val val2 mask m = ((rc, v, v2), m') ->
  v2 = val2 /\
  ((rc = IIO_VAL_INT /\ mask = IIO_CHAN_INFO_RAW /\ 0 <= v <= 65535 /\
    dln2_adc_read (to_unsigned (channel chan)) m = (v, m')) \/
   (rc = - EINVAL /\ v = val)).
Proof.
  intros HE H. unfold dln2_adc_read_raw, bind in H.
  destruct (Z.eqb_spec mask IIO_CHAN_INFO_RAW) as [Hm | Hm].
  - destruct (dln2_adc_read (to_unsigned (channel chan)) m)
      as [r0 m0] eqn:E0.
    destruct (Z.ltb_spec r0 0) as [Hneg | Hpos].
    + inversion H; subst. auto.
    + inversion H; subst.
      pose proof (dln2_adc_read_range _ _ _ _ HE E0 Hpos).
      split; [reflexivity|]. left. repeat split; auto.
  - inversion H; subst. auto.
Qed.

(** X10.  Only the low byte of the channel number reaches the wire, so
    [dln2_adc_read_raw] cannot tell apart two channel numbers that differ
    by a multiple of 256, negative numbers included: it makes the same
    calls and returns the same for both. *)
Theorem read_raw_channel_modulo c1 c2 val val2 mask m :
  (channel c1 - channel c2) mod 256 = 0 ->
  dln2_adc_read_raw c1 val val2 mask m
  = dln2_adc_read_raw c2 val val2 mask m.
Proof.
  intros H. unfold dln2_adc_read_raw, bind.
  destruct (mask =? IIO_CHAN_INFO_RAW); [|reflexivity].
  rewrite (dln2_adc_read_u8 (to_unsigned (channel c1))
             (to_unsigned (channel c2)) m); [reflexivity|].
  rewrite 2 u8_to_unsigned. unfold u8. change (2 ^ 8) with 256.
  Z.div_mod_to_equations. lia.
Qed.

(** ** Any run of calls *)

Lemma run_calls_induction (R : machine -> machine -> list event -> Prop) :
  (forall m, R m m []) ->
  (forall m m1 m2 e1 e2,
      R m m1 e1 -> R m1 m2 e2 -> R m m2 (e1 ++ e2)) ->
  (forall ch m r m',
      dln2_adc_read ch m = (r, m') ->
      exists evs, log m' = log m ++ evs /\ R m m' evs) ->
  forall calls m rs m',
    run_calls calls m = (rs, m') ->
    exists evs, log m' = log m ++ evs /\ R m m' evs.
Proof.
  intros Hrefl Htrans Hread.
  induction calls as [|c cs IH]; intros m rs m' H.
  - inversion H; subst. exists []. rewrite app_nil_r. auto.
  - cbn [run_calls] in H. unfold bind in H.
    destruct (run_call c m) as [r1 m1] eqn:E1.
    destruct (run_calls cs m1) as [rs1 m2] eqn:E2.
    inversion H; subst rs m'.
    destruct (IH _ _ _ E2) as (evs2 & Hl2 & HR2).
    assert (Hstep : exists evs, log m1 = log m ++ evs /\ R m m1 evs).
    { destruct c as [chan val val2 mask|]; simpl in E1.
      - unfold dln2_adc_read_raw, bind in E1.
        destruct (mask =? IIO_CHAN_INFO_RAW).
        + destruct (dln2_adc_read (to_unsigned (channel chan)) m)
            as [r0 m0] eqn:E0.
          assert (m1 = m0) by (destruct (r0 <? 0); inversion E1; reflexivity).
          subst m0. exact (Hread _ _ _ _ E0).
        + inversion E1; subst. exists []. rewrite app_nil_r. auto.
      - inversion E1; subst. exists []. rewrite app_nil_r. auto. }
    destruct Hstep as (evs1 & Hl1 & HR1).
    exists (evs1 ++ evs2). rewrite Hl2, Hl1, app_assoc.
    split; [reflexivity|]. eapply Htrans; eassumption.
Qed.

(** X11.  Whatever the host calls, every request the driver puts on the
    wire has the layout its command expects: the port reduced to one byte
    comes first, alone for GetChannelCount and PortEnable, followed by
    exactly one more byte (a value from 0 to 255) for the other commands.
    The port the driver works for never changes. *)
Theorem requests_well_formed calls m rs m' :
  0 < EPROTO ->
  run_calls calls m = (rs, m') ->
  exists evs,
    log m' = log m ++ evs /\
    port (adc m') = port (adc m) /\
    0 <= u8 (port (adc m)) < 256 /\
    Forall (wire_ok (port (adc m))) (requests evs).
Proof.
  intros HE H.
  destruct (run_calls_induction
              (fun m0 m1 evs =>
                 port (adc m1) = port (adc m0) /\
                 Forall (wire_ok (port (adc m0))) (requests evs)))
    with (calls := calls) (m := m) (rs := rs) (m' := m')
    as (evs & Hl & Hp & Hw); try assumption.
  - intros m0. split; [reflexivity | constructor].
  - intros m0 m1 m2 e1 e2 [Hp1 Hw1] [Hp2 Hw2].
    split; [congruence|]. rewrite requests_app. apply Forall_app.
    rewrite Hp1 in Hw2. auto.
  - intros ch m0 r m1 Hread.
    destruct (dln2_adc_read_run _ _ _ _ HE Hread)
      as (pre & e & Hl & Hpre & Hc).
    exists (pre ++ [e]). split; [assumption|].
    assert (Hgv : ev_cmd e = DLN2_ADC_CHANNEL_GET_VAL ->
                  ev_req e = dln2_adc_port_chan (port (adc m0)) ch ->
                  wire_ok (port (adc m0)) (ev_cmd e, ev_req e)).
    { intros Hgc Hgq. unfold wire_ok. simpl. rewrite Hgc, Hgq.
      exists (u8 ch). split; [apply u8_range | reflexivity]. }
    destruct Hc as [(_ & -> & Ha & Hgc & Hgq & _)
                   | [(_ & Ha & _ & _ & _ & rest & Hrest)
                     | (_ & Ha & Hreq & Hgc & Hgq & _)]].
    + split; [rewrite Ha; reflexivity|].
      constructor; [auto | constructor].
    + split; [rewrite Ha; reflexivity|].
      pose proof (enable_script_wire_ok (port (adc m0))
                    (reported_count (pre ++ [e])) true) as Hw.
      simpl in Hw. rewrite <- Hrest in Hw.
      apply Forall_app in Hw. tauto.
    + split; [rewrite Ha; reflexivity|].
      rewrite requests_app. apply Forall_app. split.
      * rewrite Hreq.
        exact (enable_script_wire_ok (port (adc m0)) (reported_count pre) true).
      * constructor; [auto | constructor].
  - exists evs. split; [assumption|]. split; [assumption|].
    split; [apply u8_range | assumption].
Qed.

(** X12.  The enabled flag counts the PortEnable commands the adapter has
    acknowledged.  Over any run of calls from a context with the flag
    clear, the flag ends as 0 or 1 and equals the number of PortEnable
    calls that went through during the run; once the flag is set, no call
    changes the driver data and no further PortEnable goes through. *)
Theorem port_enabled_once calls m rs m' :
  0 < EPROTO ->
  run_calls calls m = (rs, m') ->
  exists evs,
    log m' = log m ++ evs /\
    (chans_enabled (adc m) <> 0 ->
     adc m' = adc m /\ port_enable_count evs = O) /\
    (chans_enabled (adc m) = 0 ->
     (chans_enabled (adc m') = 0 /\ port_enable_count evs = O) \/
     (chans_enabled (adc m') = 1 /\ port_enable_count evs = 1%nat)).
Proof.
  intros HE H.
  apply (run_calls_induction
           (fun m0 m1 evs =>
              (chans_enabled (adc m0) <> 0 ->
               adc m1 = adc m0 /\ port_enable_count evs = O) /\
              (chans_enabled (adc m0) = 0 ->
               (chans_enabled (adc m1) = 0 /\ port_enable_count evs = O) \/
               (chans_enabled (adc m1) = 1 /\
                port_enable_count evs = 1%nat))))
    with (calls := calls) (rs := rs); try assumption.
  - intros m0. split; [auto|]. intros Hz. left. auto.
  - intros m0 m1 m2 e1 e2 [Hs1 Hc1] [Hs2 Hc2].
    rewrite port_enable_count_app. split.
    + intros Hne. destruct (Hs1 Hne) as [Ha1 Hn1].
      rewrite <- Ha1 in Hne. destruct (Hs2 Hne) as [Ha2 Hn2].
      split; [congruence | lia].
    + intros Hz. destruct (Hc1 Hz) as [[Hz1 Hn1] | [Ho1 Hn1]].
      * destruct (Hc2 Hz1) as [[Hz2 Hn2] | [Ho2 Hn2]];
          [left | right]; split; auto; lia.
      * assert (Hne : chans_enabled (adc m1) <> 0) by lia.
        destruct (Hs2 Hne) as [Ha2 Hn2].
        right. split; [congruence | lia].
  - intros ch m0 r m1 Hread.
    destruct (dln2_adc_read_run _ _ _ _ HE Hread)
      as (pre & e & Hl & Hpre & Hc).
    exists (pre ++ [e]). split; [assumption|].
    rewrite port_enable_count_app.
    assert (Hgv : ev_cmd e = DLN2_ADC_CHANNEL_GET_VAL ->
                  port_enable_count [e] = O).
    { intros Hgc. apply port_enable_count_none.
      constructor; [congruence | constructor]. }
    destruct Hc as [(Hne & -> & Ha & Hgc & _)
                   | [(Hz & Ha & Hf & _ & _ & rest & Hrest)
                     | (Hz & Ha & Hreq & Hgc & _)]].
    + split; [|intros Hz; contradiction].
      intros _. split; [assumption|]. rewrite (Hgv Hgc). reflexivity.
    + split; [intros Hne; contradiction|].
      intros _. left. split; [congruence|].
      rewrite (port_enable_count_failed _ Hf).
      rewrite (port_enable_count_none pre); [reflexivity|].
      exact (script_port_only_last _ _ true _ _ _ Hrest).
    + split; [intros Hne; contradiction|].
      intros _. right. split; [rewrite Ha; reflexivity|].
      rewrite (Hgv Hgc).
      destruct (script_splits_last _ _ _ _ Hreq) as (body & pe & -> & Hpc & _).
      rewrite port_enable_count_app.
      rewrite (port_enable_count_none body).
      * apply Forall_app in Hpre. destruct Hpre as [_ Hpe].
        inversion Hpe as [|? ? Hok _]; subst.
        unfold port_enable_count. simpl. unfold port_enabledb.
        rewrite Hpc. apply step_okb_spec in Hok. rewrite Hok. reflexivity.
      * assert (Hs : requests (body ++ [pe]) ++ []
                     = enable_script (port (adc m0))
                         (reported_count (body ++ [pe])) (port_cmd true))
          by (rewrite app_nil_r; exact Hreq).
        exact (script_port_only_last _ _ true _ _ _ Hs).
Qed.

End Further.

(** * The claims on a concrete kernel and adapter *)

#[local] Existing Instance linux.
#[local] Existing Instance scripted.

(** C1 at a failing input.  The adapter is unplugged and GetChannelCount
    fails with [-ENODEV] (-19): [dln2_adc_read] returns -19, and
    [dln2_adc_read_raw] hands the host [-EINVAL] (-22) in its place. *)
Theorem read_raw_replaces_error_code :
  fst (dln2_adc_read (to_unsigned 3) unplugged_port) = -19 /\
  fst (dln2_adc_read_raw (DLN2_ADC_CHAN 3) 7 9 IIO_CHAN_INFO_RAW
                         unplugged_port) = (-22, 7, 9) /\
  -22 <> -19.
Proof.
  split; [reflexivity|]. split.
  - rewrite (read_raw_collapses_errors (DLN2_ADC_CHAN 3) 7 9 unplugged_port
               (-19) (snd (dln2_adc_read (to_unsigned 3) unplugged_port)));
      [reflexivity | reflexivity | lia].
  - discriminate.
Qed.

(** C2 fails as stated: on an enabled port, [read_raw] for channel 8 and
    for channel -1 both go to the transport, as ChannelGetValue for
    channel 8 and for channel 255, and both return the value read, not an
    error. *)
Lemma out_of_range_read_reaches_transport :
  dln2_adc_read_raw (DLN2_ADC_CHAN 8) 0 0 IIO_CHAN_INFO_RAW
                    (enabled_port [(0, [x2a; x00])])
  = ((IIO_VAL_INT, 42, 0),
     {| adc := {| port := 2; chans_enabled := 1 |};
        usb := ([] : script);
        log := [mk_event DLN2_ADC_CHANNEL_GET_VAL [2; 8] 0 [x2a; x00]] |}) /\
  dln2_adc_read_raw (DLN2_ADC_CHAN (-1)) 0 0 IIO_CHAN_INFO_RAW
                    (enabled_port [(0, [x2a; x00])])
  = ((IIO_VAL_INT, 42, 0),
     {| adc := {| port := 2; chans_enabled := 1 |};
        usb := ([] : script);
        log := [mk_event DLN2_ADC_CHANNEL_GET_VAL [2; 255] 0 [x2a; x00]] |}).
Proof. split; reflexivity. Qed.

(** C2 as amended, for channel 8 on an enabled port: one ChannelGetValue
    for channel byte 8, and the value 42 comes back. *)
Lemma read_has_no_range_check_witness :
  (exists evs e,
      log (snd (dln2_adc_read_raw (DLN2_ADC_CHAN 8) 0 0 IIO_CHAN_INFO_RAW
                                  (enabled_port [(0, [x2a; x00])])))
      = log (enabled_port [(0, [x2a; x00])]) ++ evs ++ [e] /\
      Forall step_ok evs /\
      ((step_ok e /\
        ev_cmd e = DLN2_ADC_CHANNEL_GET_VAL /\
        ev_req e = [u8 (port (adc (enabled_port [(0, [x2a; x00])])));
                    u8 (channel (DLN2_ADC_CHAN 8))] /\
        (IIO_VAL_INT, 42, 0) = (IIO_VAL_INT, le16_to_cpu (ev_rsp e), 0)) \/
       (step_failed e /\ (IIO_VAL_INT, 42, 0) = (- EINVAL, 0, 0)))) /\
  (chans_enabled (adc (enabled_port [(0, [x2a; x00])])) <> 0 ->
   exists e,
     log (snd (dln2_adc_read_raw (DLN2_ADC_CHAN 8) 0 0 IIO_CHAN_INFO_RAW
                                 (enabled_port [(0, [x2a; x00])])))
     = log (enabled_port [(0, [x2a; x00])]) ++ [e] /\
     ev_cmd e = DLN2_ADC_CHANNEL_GET_VAL /\
     ev_req e = [u8 (port (adc (enabled_port [(0, [x2a; x00])])));
                 u8 (channel (DLN2_ADC_CHAN 8))] /\
     (step_ok e ->
      (IIO_VAL_INT, 42, 0) = (IIO_VAL_INT, le16_to_cpu (ev_rsp e), 0)) /\
     (step_failed e -> (IIO_VAL_INT, 42, 0) = (- EINVAL, 0, 0))) /\
  map channel dln2_adc_iio_channels = [0; 1; 2; 3; 4; 5; 6; 7] /\
  Forall (fun c => 0 <= channel c < DLN2_ADC_MAX_CHANNELS)
         dln2_adc_iio_channels.
Proof.
  apply (read_has_no_range_check (DLN2_ADC_CHAN 8) 0 0
           (enabled_port [(0, [x2a; x00])])
           (IIO_VAL_INT, 42, 0)).
  - reflexivity.
  - reflexivity.
Defined.

(** C3 on the freshly probed port 2 with two channels, reading channel 5:
    the log is GetChannelCount, SetResolution, ChannelEnable 0,
    ChannelEnable 1, PortEnable, ChannelGetValue. *)
Lemma enable_sequence_in_order_witness :
  exists evs,
    log (snd (dln2_adc_read 5 fresh_port)) = log fresh_port ++ evs /\
    (exists rest,
        requests evs ++ rest
        = enable_script (port (adc fresh_port)) (reported_count evs)
                        DLN2_ADC_ENABLE
          ++ [(DLN2_ADC_CHANNEL_GET_VAL,
               dln2_adc_port_chan (port (adc fresh_port)) 5)]) /\
    (chans_enabled (adc (snd (dln2_adc_read 5 fresh_port))) <> 0 ->
     exists steps pe gv,
       evs = steps ++ [pe; gv] /\
       requests (steps ++ [pe])
       = enable_script (port (adc fresh_port)) (reported_count evs)
                       DLN2_ADC_ENABLE /\
       nth 1 (requests evs) (DLN2_ADC_DISABLE, [])
       = (DLN2_ADC_SET_RESOLUTION, [u8 (port (adc fresh_port)); 10]) /\
       Forall step_ok steps /\
       ev_cmd pe = DLN2_ADC_ENABLE /\ step_ok pe /\
       ev_cmd gv = DLN2_ADC_CHANNEL_GET_VAL /\
       chans_enabled (adc (snd (dln2_adc_read 5 fresh_port))) = 1) /\
    ((exists steps pe gv,
         evs = steps ++ [pe; gv] /\
         requests (steps ++ [pe])
         = (DLN2_ADC_GET_CHANNEL_COUNT, [u8 (port (adc fresh_port))])
           :: (DLN2_ADC_SET_RESOLUTION, [u8 (port (adc fresh_port)); 10])
           :: map (fun c => (DLN2_ADC_CHANNEL_ENABLE,
                             [u8 (port (adc fresh_port)); u8 c]))
                  (zrange 0 (reported_count evs))
           ++ [(DLN2_ADC_ENABLE, [u8 (port (adc fresh_port))])] /\
         Forall step_ok (steps ++ [pe]) /\
         ev_cmd pe = DLN2_ADC_ENABLE /\
         ev_cmd gv = DLN2_ADC_CHANNEL_GET_VAL /\
         ev_req gv = [u8 (port (adc fresh_port)); u8 5] /\
         chans_enabled (adc (snd (dln2_adc_read 5 fresh_port))) = 1) \/
     (exists done e,
         evs = done ++ [e] /\
         Forall step_ok done /\
         step_failed e /\
         ev_cmd e <> DLN2_ADC_CHANNEL_GET_VAL /\
         chans_enabled (adc (snd (dln2_adc_read 5 fresh_port))) = 0 /\
         fst (dln2_adc_read 5 fresh_port) = err_of e)).
Proof.
  apply (enable_sequence_in_order fresh_port 5
           (fst (dln2_adc_read 5 fresh_port))).
  - reflexivity.
  - reflexivity.
  - reflexivity.
Defined.

(** C4 on the port whose fifth ChannelEnable fails: the failed call is the
    last one, the flag stays clear, the read returns -110. *)
Lemma enable_failure_stops_witness :
  ([] : list event) = [] /\
  adc (snd (dln2_adc_read 0 fifth_channel_fails)) = adc fifth_channel_fails /\
  chans_enabled (adc (snd (dln2_adc_read 0 fifth_channel_fails))) = 0 /\
  fst (dln2_adc_read 0 fifth_channel_fails)
  = err_of (mk_event DLN2_ADC_CHANNEL_ENABLE [2; 4] (-110) []) /\
  fst (dln2_adc_read 0 fifth_channel_fails) < 0 /\
  Forall step_ok
         (firstn 6 (log (snd (dln2_adc_read 0 fifth_channel_fails)))) /\
  Forall (fun x => ev_cmd x <> DLN2_ADC_CHANNEL_GET_VAL)
         (firstn 6 (log (snd (dln2_adc_read 0 fifth_channel_fails)))
          ++ [mk_event DLN2_ADC_CHANNEL_ENABLE [2; 4] (-110) []]) /\
  (ev_cmd (mk_event DLN2_ADC_CHANNEL_ENABLE [2; 4] (-110) [])
   = DLN2_ADC_GET_CHANNEL_COUNT ->
   firstn 6 (log (snd (dln2_adc_read 0 fifth_channel_fails))) = []) /\
  (ev_cmd (mk_event DLN2_ADC_CHANNEL_ENABLE [2; 4] (-110) [])
   <> DLN2_ADC_ENABLE ->
   Forall (fun x => ev_cmd x <> DLN2_ADC_ENABLE)
          (firstn 6 (log (snd (dln2_adc_read 0 fifth_channel_fails)))
           ++ [mk_event DLN2_ADC_CHANNEL_ENABLE [2; 4] (-110) []])).
Proof.
  apply (enable_failure_stops fifth_channel_fails 0
           (fst (dln2_adc_read 0 fifth_channel_fails))
           (snd (dln2_adc_read 0 fifth_channel_fails))
           (firstn 6 (log (snd (dln2_adc_read 0 fifth_channel_fails))))
           (mk_event DLN2_ADC_CHANNEL_ENABLE [2; 4] (-110) [])
           []).
  - reflexivity.
  - reflexivity.
  - reflexivity.
  - reflexivity.
  - simpl. discriminate.
  - left. unfold transport_failed. simpl. lia.
Defined.

(** C5 on the fresh port: the first read enables it and returns 1023; the
    three reads that follow issue three ChannelGetValue commands. *)
Lemma enabled_reads_only_get_value_witness :
  chans_enabled (adc (snd (dln2_adc_read 5 fresh_port))) <> 0 /\
  chans_enabled
    (adc (snd (read_each [0; 1; 7] (snd (dln2_adc_read 5 fresh_port))))) <> 0 /\
  exists evs,
    log (snd (read_each [0; 1; 7] (snd (dln2_adc_read 5 fresh_port))))
    = log (snd (dln2_adc_read 5 fresh_port)) ++ evs /\
    requests evs
    = map (fun c => (DLN2_ADC_CHANNEL_GET_VAL,
                     dln2_adc_port_chan (port (adc fresh_port)) c))
          [0; 1; 7] /\
    Forall (fun e => ev_cmd e = DLN2_ADC_CHANNEL_GET_VAL) evs.
Proof.
  apply (enabled_reads_only_get_value fresh_port 5
           (fst (dln2_adc_read 5 fresh_port))
           (snd (dln2_adc_read 5 fresh_port))
           [0; 1; 7]
           (fst (read_each [0; 1; 7] (snd (dln2_adc_read 5 fresh_port))))).
  - reflexivity.
  - reflexivity.
  - vm_compute. discriminate.
  - reflexivity.
Defined.

(** C6 on a GetChannelCount answered with no bytes: the result is
    [-EPROTO] (-71). *)
Lemma short_response_is_protocol_error_witness :
  fst (dln2_adc_get_chan_count (boot (dln2_adc_probe 2) [(0, [])])) = -71 /\
  fst (dln2_adc_read 0 (boot (dln2_adc_probe 2) [(0, [])])) = - EPROTO /\
  adc (snd (dln2_adc_read 0 (boot (dln2_adc_probe 2) [(0, [])])))
  = dln2_adc_probe 2.
Proof.
  assert (HE : 0 < EPROTO) by reflexivity.
  destruct (short_response_is_protocol_error HE) as (Hcount & _ & Hread & _).
  split; [|split].
  - refine (proj1 (Hcount (boot (dln2_adc_probe 2) [(0, [])]) _ _ []
                     (mk_event DLN2_ADC_GET_CHANNEL_COUNT [2] 0 [])
                     eq_refl eq_refl _)).
    split; simpl; lia.
  - refine (proj1 (Hread 0 (boot (dln2_adc_probe 2) [(0, [])]) _ _ []
                     (mk_event DLN2_ADC_GET_CHANNEL_COUNT [2] 0 [])
                     eq_refl eq_refl _)).
    split; simpl; lia.
  - reflexivity.
Defined.

(** C7 for port 2 and channel 5: the payload [0xFF 0x03] reads as 1023. *)
Lemma get_value_little_endian_witness :
  (forall b0 b1 rest,
      ev_rsp (mk_event DLN2_ADC_CHANNEL_GET_VAL [2; 5] 0 [xff; x03])
      = b0 :: b1 :: rest ->
      fst (dln2_adc_read 5 fresh_port) = byte_val b0 + 256 * byte_val b1) /\
  (ev_rsp (mk_event DLN2_ADC_CHANNEL_GET_VAL [2; 5] 0 [xff; x03])
   = [xff; x03] ->
   fst (dln2_adc_read 5 fresh_port) = 1023).
Proof.
  apply (get_value_little_endian fresh_port 5
           (fst (dln2_adc_read 5 fresh_port))
           (snd (dln2_adc_read 5 fresh_port))
           (removelast (log (snd (dln2_adc_read 5 fresh_port))))
           (mk_event DLN2_ADC_CHANNEL_GET_VAL [2; 5] 0 [xff; x03])).
  - reflexivity.
  - reflexivity.
  - reflexivity.
  - reflexivity.
  - simpl. lia.
Defined.

(** C8 fails as stated: an adapter that answers ChannelGetValue with
    [0xFF 0xFF] makes a successful read return 65535. *)
Lemma raw_value_exceeds_ten_bits :
  dln2_adc_read 3 (enabled_port [(0, [xff; xff])])
  = (65535,
     {| adc := {| port := 2; chans_enabled := 1 |};
        usb := ([] : script);
        log := [mk_event DLN2_ADC_CHANNEL_GET_VAL [2; 3] 0 [xff; xff]] |}) /\
  0 <= 65535 /\ ~ (0 <= 65535 <= 1023).
Proof. split; [reflexivity|]. lia. Qed.

(** C8 as amended, on the fresh port reading channel 5. *)
Lemma raw_value_sixteen_bits_witness :
  exists l e b0 b1 rest,
    log (snd (dln2_adc_read 5 fresh_port)) = l ++ [e] /\
    ev_cmd e = DLN2_ADC_CHANNEL_GET_VAL /\
    ev_rsp e = b0 :: b1 :: rest /\
    fst (dln2_adc_read 5 fresh_port) = byte_val b0 + 256 * byte_val b1 /\
    0 <= fst (dln2_adc_read 5 fresh_port) <= 65535 /\
    (fst (dln2_adc_read 5 fresh_port) <= 1023 <-> byte_val b1 <= 3).
Proof.
  apply (raw_value_sixteen_bits fresh_port 5
           (fst (dln2_adc_read 5 fresh_port))
           (snd (dln2_adc_read 5 fresh_port))).
  - reflexivity.
  - reflexivity.
  - vm_compute. discriminate.
Defined.

(** C9 on the fresh port: a raw read, a read with another mask, a read of
    an absent channel, then [remove]. *)
Lemma disable_never_issued_witness :
  (chans_enabled (adc fresh_port) <> 0 ->
   chans_enabled
     (adc (snd (run_calls [Call_read_raw (DLN2_ADC_CHAN 0) 0 0 0;
                           Call_read_raw (DLN2_ADC_CHAN 1) 0 0 5;
                           Call_read_raw (DLN2_ADC_CHAN 9) 0 0 0;
                           Call_remove] fresh_port))) <> 0) /\
  (exists evs,
      log (snd (run_calls [Call_read_raw (DLN2_ADC_CHAN 0) 0 0 0;
                           Call_read_raw (DLN2_ADC_CHAN 1) 0 0 5;
                           Call_read_raw (DLN2_ADC_CHAN 9) 0 0 0;
                           Call_remove] fresh_port))
      = log fresh_port ++ evs /\
      Forall (fun e => ev_cmd e <> DLN2_ADC_DISABLE /\
                       ev_cmd e <> DLN2_ADC_CHANNEL_DISABLE) evs) /\
  dln2_adc_remove fresh_port = (0, fresh_port).
Proof.
  apply (disable_never_issued
           [Call_read_raw (DLN2_ADC_CHAN 0) 0 0 0;
            Call_read_raw (DLN2_ADC_CHAN 1) 0 0 5;
            Call_read_raw (DLN2_ADC_CHAN 9) 0 0 0;
            Call_remove] fresh_port
           (fst (run_calls [Call_read_raw (DLN2_ADC_CHAN 0) 0 0 0;
                            Call_read_raw (DLN2_ADC_CHAN 1) 0 0 5;
                            Call_read_raw (DLN2_ADC_CHAN 9) 0 0 0;
                            Call_remove] fresh_port))).
  - reflexivity.
  - reflexivity.
Defined.

(** C10 for the mask 1 on the fresh port. *)
Lemma read_raw_other_mask_witness :
  dln2_adc_read_raw (DLN2_ADC_CHAN 3) 7 9 1 fresh_port
  = ((- EINVAL, 7, 9), fresh_port).
Proof.
  apply (read_raw_other_mask (DLN2_ADC_CHAN 3) 7 9 1 fresh_port).
  simpl. discriminate.
Defined.

(** * The further properties on the concrete kernel and adapter *)

(** X1 on the fresh port: the adapter reports two channels. *)
Lemma get_chan_count_result_witness :
  adc (snd (dln2_adc_get_chan_count fresh_port)) = adc fresh_port /\
  exists e,
    log (snd (dln2_adc_get_chan_count fresh_port)) = log fresh_port ++ [e] /\
    ev_cmd e = DLN2_ADC_GET_CHANNEL_COUNT /\
    ev_req e = [u8 (port (adc fresh_port))] /\
    (step_failed e ->
     fst (dln2_adc_get_chan_count fresh_port) = err_of e /\
     fst (dln2_adc_get_chan_count fresh_port) < 0) /\
    (step_ok e ->
     0 <= fst (dln2_adc_get_chan_count fresh_port) <= 255 /\
     forall b rest,
       ev_rsp e = b :: rest ->
       fst (dln2_adc_get_chan_count fresh_port) = byte_val b).
Proof.
  apply (get_chan_count_result fresh_port
           (fst (dln2_adc_get_chan_count fresh_port))).
  - reflexivity.
  - reflexivity.
Defined.

(** X2 for ChannelDisable on channel 300 with a transport that answers 7:
    the result is 0 and the channel byte is 44. *)
Lemma send_only_step_results_witness :
  adc (snd (dln2_adc_set_chan_enabled 300 false (enabled_port [(7, [x01])])))
  = adc (enabled_port [(7, [x01])]) /\
  exists e,
    log (snd (dln2_adc_set_chan_enabled 300 false
                (enabled_port [(7, [x01])])))
    = log (enabled_port [(7, [x01])]) ++ [e] /\
    ev_cmd e = DLN2_ADC_CHANNEL_DISABLE /\
    ev_req e = [u8 (port (adc (enabled_port [(7, [x01])]))); u8 300] /\
    fst (dln2_adc_set_chan_enabled 300 false (enabled_port [(7, [x01])]))
    <= 0 /\
    (fst (dln2_adc_set_chan_enabled 300 false (enabled_port [(7, [x01])]))
     < 0 <-> ev_ret e < 0) /\
    (fst (dln2_adc_set_chan_enabled 300 false (enabled_port [(7, [x01])]))
     < 0 ->
     fst (dln2_adc_set_chan_enabled 300 false (enabled_port [(7, [x01])]))
     = ev_ret e).
Proof.
  apply (proj2 (send_only_step_results (enabled_port [(7, [x01])]))
           300 false
           (fst (dln2_adc_set_chan_enabled 300 false
                   (enabled_port [(7, [x01])])))).
  reflexivity.
Defined.

(** X3 for [enable = false] on the fresh port: both channels are enabled
    and the sequence closes with PortDisable. *)
Lemma set_port_enabled_script_witness :
  adc (snd (dln2_adc_set_port_enabled false fresh_port)) = adc fresh_port /\
  fst (dln2_adc_set_port_enabled false fresh_port) <= 0 /\
  exists evs,
    log (snd (dln2_adc_set_port_enabled false fresh_port))
    = log fresh_port ++ evs /\
    Forall (fun e => ev_cmd e <> DLN2_ADC_CHANNEL_DISABLE) evs /\
    (fst (dln2_adc_set_port_enabled false fresh_port) = 0 ->
     Forall step_ok evs /\
     requests evs
     = enable_script (port (adc fresh_port)) (reported_count evs)
                     DLN2_ADC_DISABLE) /\
    (fst (dln2_adc_set_port_enabled false fresh_port) < 0 ->
     exists pre e, evs = pre ++ [e] /\ Forall step_ok pre /\
                   step_failed e /\
                   fst (dln2_adc_set_port_enabled false fresh_port)
                   = err_of e /\
                   Forall (fun x => ev_cmd x <> DLN2_ADC_ENABLE /\
                                    ev_cmd x <> DLN2_ADC_DISABLE) pre).
Proof.
  apply (set_port_enabled_script false fresh_port
           (fst (dln2_adc_set_port_enabled false fresh_port))).
  - reflexivity.
  - reflexivity.
Defined.

(** X4 on the port whose ChannelGetValue times out: the read returns
    -110. *)
Lemma read_transport_error_verbatim_witness :
  ([] : list event) = [] /\
  fst (dln2_adc_read 5 get_value_times_out)
  = ev_ret (mk_event DLN2_ADC_CHANNEL_GET_VAL [2; 5] (-110) []) /\
  Forall step_ok (firstn 5 (log (snd (dln2_adc_read 5 get_value_times_out)))).
Proof.
  apply (read_transport_error_verbatim get_value_times_out 5
           (fst (dln2_adc_read 5 get_value_times_out))
           (snd (dln2_adc_read 5 get_value_times_out))
           (firstn 5 (log (snd (dln2_adc_read 5 get_value_times_out))))
           (mk_event DLN2_ADC_CHANNEL_GET_VAL [2; 5] (-110) [])
           []).
  - reflexivity.
  - reflexivity.
  - reflexivity.
  - reflexivity.
Defined.

(** X5 on the fresh port. *)
Lemma read_succeeds_iff_steps_ok_witness :
  exists pre e,
    log (snd (dln2_adc_read 5 fresh_port)) = log fresh_port ++ pre ++ [e] /\
    Forall step_ok pre /\
    (fst (dln2_adc_read 5 fresh_port) < 0 <-> step_failed e) /\
    (0 <= fst (dln2_adc_read 5 fresh_port) <-> step_ok e) /\
    (0 <= fst (dln2_adc_read 5 fresh_port) ->
     ev_cmd e = DLN2_ADC_CHANNEL_GET_VAL /\
     ev_req e = [u8 (port (adc fresh_port)); u8 5] /\
     fst (dln2_adc_read 5 fresh_port) = le16_to_cpu (ev_rsp e)).
Proof.
  apply (read_succeeds_iff_steps_ok fresh_port 5
           (fst (dln2_adc_read 5 fresh_port))
           (snd (dln2_adc_read 5 fresh_port))).
  - reflexivity.
  - reflexivity.
Defined.

(** X6 on the port whose ChannelGetValue times out: the read fails and the
    flag is set all the same. *)
Lemma first_read_flag_follows_get_value_witness :
  (ev_cmd (mk_event DLN2_ADC_CHANNEL_GET_VAL [2; 5] (-110) [])
   = DLN2_ADC_CHANNEL_GET_VAL ->
   adc (snd (dln2_adc_read 5 get_value_times_out))
   = enabled_adc (adc get_value_times_out)) /\
  (ev_cmd (mk_event DLN2_ADC_CHANNEL_GET_VAL [2; 5] (-110) [])
   <> DLN2_ADC_CHANNEL_GET_VAL ->
   adc (snd (dln2_adc_read 5 get_value_times_out)) = adc get_value_times_out
   /\ fst (dln2_adc_read 5 get_value_times_out) < 0) /\
  (chans_enabled (adc (snd (dln2_adc_read 5 get_value_times_out))) = 1 <->
   ev_cmd (mk_event DLN2_ADC_CHANNEL_GET_VAL [2; 5] (-110) [])
   = DLN2_ADC_CHANNEL_GET_VAL).
Proof.
  apply (first_read_flag_follows_get_value get_value_times_out 5
           (fst (dln2_adc_read 5 get_value_times_out))
           (snd (dln2_adc_read 5 get_value_times_out))
           (firstn 5 (log (snd (dln2_adc_read 5 get_value_times_out))))
           (mk_event DLN2_ADC_CHANNEL_GET_VAL [2; 5] (-110) [])).
  - reflexivity.
  - reflexivity.
  - reflexivity.
  - reflexivity.
Defined.

(** X7 on the port whose fifth ChannelEnable fails: the next read starts
    with GetChannelCount again. *)
Lemma failed_enable_retried_from_start_witness :
  fst (dln2_adc_read 0 fifth_channel_fails) < 0 /\
  adc (snd (dln2_adc_read 0 fifth_channel_fails)) = adc fifth_channel_fails /\
  exists e evs,
    log (snd (dln2_adc_read 1 (snd (dln2_adc_read 0 fifth_channel_fails))))
    = log (snd (dln2_adc_read 0 fifth_channel_fails)) ++ e :: evs /\
    ev_cmd e = DLN2_ADC_GET_CHANNEL_COUNT /\
    ev_req e = [u8 (port (adc fifth_channel_fails))].
Proof.
  apply (failed_enable_retried_from_start fifth_channel_fails 0
           (fst (dln2_adc_read 0 fifth_channel_fails))
           (snd (dln2_adc_read 0 fifth_channel_fails))
           1
           (fst (dln2_adc_read 1 (snd (dln2_adc_read 0 fifth_channel_fails))))).
  - reflexivity.
  - reflexivity.
  - reflexivity.
  - reflexivity.
  - reflexivity.
Defined.

(** X8 on the fresh port: two channels, six calls. *)
Lemma channel_enable_follows_count_witness :
  exists g s cs pe gv,
    log (snd (dln2_adc_read 5 fresh_port))
    = log fresh_port ++ g :: s :: cs ++ [pe; gv] /\
    ev_cmd g = DLN2_ADC_GET_CHANNEL_COUNT /\
    Z.of_nat (length cs) = count_of (ev_rsp g) /\
    (length cs <= 255)%nat /\
    length (g :: s :: cs ++ [pe; gv]) = (length cs + 4)%nat /\
    forall k, (k < length cs)%nat ->
      exists c, nth_error cs k = Some c /\
                ev_cmd c = DLN2_ADC_CHANNEL_ENABLE /\
                ev_req c = [u8 (port (adc fresh_port)); Z.of_nat k].
Proof.
  apply (channel_enable_follows_count fresh_port 5
           (fst (dln2_adc_read 5 fresh_port))).
  - reflexivity.
  - reflexivity.
  - reflexivity.
  - vm_compute. discriminate.
Defined.

(** X9 on the fresh port, channel 5, with 7 and 9 in the out-parameters
    on entry. *)
Lemma read_raw_outputs_witness :
  9 = 9 /\
  ((IIO_VAL_INT = IIO_VAL_INT /\ 0 = IIO_CHAN_INFO_RAW /\
    0 <= 1023 <= 65535 /\
    dln2_adc_read (to_unsigned (channel (DLN2_ADC_CHAN 5))) fresh_port
    = (1023, snd (dln2_adc_read_raw (DLN2_ADC_CHAN 5) 7 9 0 fresh_port))) \/
   (IIO_VAL_INT = - EINVAL /\ 1023 = 7)).
Proof.
  apply (read_raw_outputs (DLN2_ADC_CHAN 5) 7 9 0 fresh_port
           IIO_VAL_INT 1023 9
           (snd (dln2_adc_read_raw (DLN2_ADC_CHAN 5) 7 9 0 fresh_port))).
  - reflexivity.
  - reflexivity.
Defined.

(** X10 for the channel numbers -1 and 255. *)
Lemma read_raw_channel_modulo_witness :
  dln2_adc_read_raw (DLN2_ADC_CHAN (-1)) 0 0 0 fresh_port
  = dln2_adc_read_raw (DLN2_ADC_CHAN 255) 0 0 0 fresh_port.
Proof.
  apply (read_raw_channel_modulo (DLN2_ADC_CHAN (-1)) (DLN2_ADC_CHAN 255)
           0 0 0 fresh_port).
  reflexivity.
Defined.

(** X11 on the fresh port: two raw reads, one of them for an absent
    channel, and [remove]. *)
Lemma requests_well_formed_witness :
  exists evs,
    log (snd (run_calls [Call_read_raw (DLN2_ADC_CHAN 0) 0 0 0;
                         Call_read_raw (DLN2_ADC_CHAN 300) 0 0 0;
                         Call_remove] fresh_port))
    = log fresh_port ++ evs /\
    port (adc (snd (run_calls [Call_read_raw (DLN2_ADC_CHAN 0) 0 0 0;
                               Call_read_raw (DLN2_ADC_CHAN 300) 0 0 0;
                               Call_remove] fresh_port)))
    = port (adc fresh_port) /\
    0 <= u8 (port (adc fresh_port)) < 256 /\
    Forall (wire_ok (port (adc fresh_port))) (requests evs).
Proof.
  apply (requests_well_formed
           [Call_read_raw (DLN2_ADC_CHAN 0) 0 0 0;
            Call_read_raw (DLN2_ADC_CHAN 300) 0 0 0;
            Call_remove] fresh_port
           (fst (run_calls [Call_read_raw (DLN2_ADC_CHAN 0) 0 0 0;
                            Call_read_raw (DLN2_ADC_CHAN 300) 0 0 0;
                            Call_remove] fresh_port))).
  - reflexivity.
  - reflexivity.
Defined.

(** X12 on the port whose fifth ChannelEnable fails: two reads, no
    PortEnable acknowledged, the flag clear. *)
Lemma port_enabled_once_witness :
  exists evs,
    log (snd (run_calls [Call_read_raw (DLN2_ADC_CHAN 0) 0 0 0;
                         Call_read_raw (DLN2_ADC_CHAN 1) 0 0 0]
                        fifth_channel_fails))
    = log fifth_channel_fails ++ evs /\
    (chans_enabled (adc fifth_channel_fails) <> 0 ->
     adc (snd (run_calls [Call_read_raw (DLN2_ADC_CHAN 0) 0 0 0;
                          Call_read_raw (DLN2_ADC_CHAN 1) 0 0 0]
                         fifth_channel_fails))
     = adc fifth_channel_fails /\ port_enable_count evs = O) /\
    (chans_enabled (adc fifth_channel_fails) = 0 ->
     (chans_enabled
        (adc (snd (run_calls [Call_read_raw (DLN2_ADC_CHAN 0) 0 0 0;
                              Call_read_raw (DLN2_ADC_CHAN 1) 0 0 0]
                             fifth_channel_fails))) = 0 /\
      port_enable_count evs = O) \/
     (chans_enabled
        (adc (snd (run_calls [Call_read_raw (DLN2_ADC_CHAN 0) 0 0 0;
                              Call_read_raw (DLN2_ADC_CHAN 1) 0 0 0]
                             fifth_channel_fails))) = 1 /\
      port_enable_count evs = 1%nat)).
Proof.
  apply (port_enabled_once
           [Call_read_raw (DLN2_ADC_CHAN 0) 0 0 0;
            Call_read_raw (DLN2_ADC_CHAN 1) 0 0 0]
           fifth_channel_fails
           (fst (run_calls [Call_read_raw (DLN2_ADC_CHAN 0) 0 0 0;
                            Call_read_raw (DLN2_ADC_CHAN 1) 0 0 0]
                           fifth_channel_fails))).
  - reflexivity.
  - reflexivity.
Defined.
